(** * blob-util: a shallow embedding of [src/blob-util.ts]

    The library converts between binary strings, base64 text, array
    buffers, blobs and data URLs.  The pure conversions are embedded as
    Rocq functions; the host primitives the library calls ([atob], [btoa],
    [new Blob], the legacy blob builders, [FileReader], the canvas) are
    modelled after the web platform's specifications, and the code of the
    library is embedded on top of them. *)

From Stdlib Require Import ZArith Lia Strings.Byte Ascii String.
From stdpp Require Import base option list gmap strings.

Local Open Scope Z_scope.

(** ** JavaScript data *)

(** A JavaScript string is a sequence of UTF-16 code units; [charCodeAt]
    and [length] work on code units.  A code unit is an integer in
    [0, 65535]; a binary string only uses [0, 255]. *)
Abbreviation jsstring := (list Z).

Definition binary_char (c : Z) : Prop := 0 <= c <= 255.
Definition binary_string (s : jsstring) : Prop := Forall binary_char s.

(** String literals of the source, as code units. *)
Definition js (s : string) : jsstring :=
  map (fun a : ascii => Z.of_nat (nat_of_ascii a)) (list_ascii_of_string s).

(** An [ArrayBuffer], seen through a [Uint8Array]: a sequence of bytes. *)
Abbreviation ArrayBuffer := (list byte).

Definition byte_to_Z (b : byte) : Z := Z.of_N (Byte.to_N b).

Definition byte_of_Z (z : Z) : byte :=
  match Byte.of_N (Z.to_N z) with
  | Some b => b
  | None => x00
  end.

(** A JavaScript number as far as this code meets them: an integer, or
    [NaN] ([None]). *)
Definition number := option Z.

(** [binary.charCodeAt(i)]: the code unit at [i], [NaN] out of range. *)
Definition charCodeAt (binary : jsstring) (i : nat) : number := binary !! i.

(** Storing a number into a [Uint8Array] slot applies [ToUint8]: the
    integer modulo 256, and 0 for [NaN]. *)
Definition ToUint8 (n : number) : byte :=
  match n with
  | Some z => byte_of_Z (z mod 256)
  | None => x00
  end.

(** [String.fromCharCode(v)] where [v] is a typed-array read: [ToUint16]
    of the byte, or of [undefined] (which is [NaN], hence 0). *)
Definition fromCharCode (v : option byte) : jsstring :=
  match v with
  | Some b => [byte_to_Z b mod 65536]
  | None => [0]
  end.

(** ** ByteCodec: [binaryStringToArrayBuffer] and [arrayBufferToBinaryString] *)

(** The loop [i = -1; while (++i < length) arr[i] = binary.charCodeAt(i)].
    [todo] is the number of iterations left, [length - i]; [i] is the value
    of the counter in the body. *)
Fixpoint binaryStringToArrayBuffer_loop
    (todo : nat) (i : nat) (binary : jsstring) (arr : list byte) : list byte :=
  match todo with
  | O => arr
  | S todo' =>
      binaryStringToArrayBuffer_loop todo' (S i) binary
        (<[i := ToUint8 (charCodeAt binary i)]> arr)
  end.

Definition binaryStringToArrayBuffer (binary : jsstring) : ArrayBuffer :=
  let length := length binary in
  let buf := replicate length x00 in       (* new ArrayBuffer(length) *)
  binaryStringToArrayBuffer_loop length 0 binary buf.

(** The loop [i = -1; while (++i < length) binary += String.fromCharCode(bytes[i])]. *)
Fixpoint arrayBufferToBinaryString_loop
    (todo : nat) (i : nat) (bytes : list byte) (binary : jsstring) : jsstring :=
  match todo with
  | O => binary
  | S todo' =>
      arrayBufferToBinaryString_loop todo' (S i) bytes
        (binary ++ fromCharCode (bytes !! i))
  end.

Definition arrayBufferToBinaryString (buffer : ArrayBuffer) : jsstring :=
  let binary := [] in
  let bytes := buffer in                   (* new Uint8Array(buffer) *)
  let length := length bytes in
  arrayBufferToBinaryString_loop length 0 bytes binary.

(** ** Errors and results *)

(** An error object: what [e.name] and [e.message] read. *)
Record js_error := { name : string; message : string }.

Definition TypeError (msg : string) : js_error :=
  {| name := "TypeError"; message := msg |}.
Definition ReferenceError (msg : string) : js_error :=
  {| name := "ReferenceError"; message := msg |}.
(** The [DOMException] that [atob] and [btoa] throw. *)
Definition InvalidCharacterError (msg : string) : js_error :=
  {| name := "InvalidCharacterError"; message := msg |}.

(** The result of a synchronous call: a value, or a thrown error. *)
Inductive outcome (A : Type) : Type :=
  | Return (a : A)
  | Throw (e : js_error).
Arguments Return {A} a.
Arguments Throw {A} e.

(** ** The host's base64 codec: [btoa] and [atob]

    The library delegates to the host here.  The host functions follow
    the HTML standard: [btoa] is RFC 4648 base64 over a binary string,
    [atob] is the standard's forgiving base64 decoding. *)

(** A 6-bit value. *)
Definition sextet (n : Z) : Prop := 0 <= n < 64.

(** The base64 alphabet: the character of a 6-bit value. *)
Definition base64_char (n : Z) : Z :=
  if n <? 26 then 65 + n                 (* A-Z *)
  else if n <? 52 then 97 + (n - 26)     (* a-z *)
  else if n <? 62 then 48 + (n - 52)     (* 0-9 *)
  else if n =? 62 then 43                (* + *)
  else 47.                               (* / *)

(** The 6-bit value of a character of the alphabet. *)
Definition base64_value (c : Z) : option Z :=
  if (65 <=? c) && (c <=? 90) then Some (c - 65)
  else if (97 <=? c) && (c <=? 122) then Some (c - 97 + 26)
  else if (48 <=? c) && (c <=? 57) then Some (c - 48 + 52)
  else if c =? 43 then Some 62
  else if c =? 47 then Some 63
  else None.

Definition equals_sign : Z := 61.

(** RFC 4648: three bytes become four characters; a tail of one or two
    bytes is padded with [=]. *)
Fixpoint base64_encode (bytes : list byte) : jsstring :=
  match bytes with
  | [] => []
  | [a] =>
      let n := byte_to_Z a in
      [base64_char (n / 4); base64_char (n mod 4 * 16); equals_sign; equals_sign]
  | [a; b] =>
      let n := byte_to_Z a * 256 + byte_to_Z b in
      [base64_char (n / 1024); base64_char (n / 16 mod 64);
       base64_char (n mod 16 * 4); equals_sign]
  | a :: b :: c :: rest =>
      let n := byte_to_Z a * 65536 + byte_to_Z b * 256 + byte_to_Z c in
      [base64_char (n / 262144); base64_char (n / 4096 mod 64);
       base64_char (n / 64 mod 64); base64_char (n mod 64)]
      ++ base64_encode rest
  end.

(** [btoa(data)]: throws when a character is above U+00FF. *)
Definition btoa (data : jsstring) : outcome jsstring :=
  if forallb (fun c => (0 <=? c) && (c <=? 255)) data
  then Return (base64_encode (map byte_of_Z data))
  else Throw (InvalidCharacterError "The string to be encoded contains characters outside of the Latin1 range.").

(** ASCII whitespace: TAB, LF, FF, CR, SPACE. *)
Definition ascii_whitespace (c : Z) : bool :=
  (c =? 9) || (c =? 10) || (c =? 12) || (c =? 13) || (c =? 32).

(** Forgiving decoding, step 2: when the length is a multiple of four,
    one or two trailing [=] are removed. *)
Definition remove_padding (data : jsstring) : jsstring :=
  if (Z.of_nat (length data) mod 4 =? 0) then
    match reverse data with
    | c1 :: r1 =>
        if c1 =? equals_sign then
          match r1 with
          | c2 :: r2 => if c2 =? equals_sign then reverse r2 else reverse r1
          | [] => reverse r1
          end
        else data
    | [] => data
    end
  else data.

(** Forgiving decoding, steps 5 to 8: 24 bits at a time give three bytes;
    a rest of 12 bits gives one byte, a rest of 18 bits two. *)
Fixpoint decode_sextets (l : list Z) : list byte :=
  match l with
  | a :: b :: c :: d :: rest =>
      let n := a * 262144 + b * 4096 + c * 64 + d in
      [byte_of_Z (n / 65536); byte_of_Z (n / 256 mod 256); byte_of_Z (n mod 256)]
      ++ decode_sextets rest
  | [a; b; c] =>
      let n := (a * 4096 + b * 64 + c) / 4 in
      [byte_of_Z (n / 256); byte_of_Z (n mod 256)]
  | [a; b] =>
      let n := (a * 64 + b) / 16 in
      [byte_of_Z n]
  | _ => []
  end.

Definition forgiving_base64_decode (data : jsstring) : option (list byte) :=
  let data := filter (fun c => ascii_whitespace c = false) data in
  let data := remove_padding data in
  if Z.of_nat (length data) mod 4 =? 1 then None
  else
    match mapM base64_value data with
    | Some sextets => Some (decode_sextets sextets)
    | None => None
    end.

(** [atob(data)]: the decoded bytes as a binary string. *)
Definition atob (data : jsstring) : outcome jsstring :=
  match forgiving_base64_decode data with
  | Some bytes => Return (map byte_to_Z bytes)
  | None => Throw (InvalidCharacterError "The string to be decoded is not correctly encoded.")
  end.

(** ** Blobs and the host's ways of building them *)

(** A blob: a content type and bytes. *)
Record Blob := { type : jsstring; content : list byte }.

(** What a [parts] array may hold. *)
Inductive blob_part :=
  | ArrayBufferPart (buffer : list byte)
  | StringPart (text : jsstring)
  | BlobPart (blob : Blob).

(** The [properties] object that reaches the host: its [type] member,
    [None] when it has none. *)
Record properties := { properties_type : option jsstring }.

(** The [properties] argument of [createBlob]: left out, a string, or an
    object. *)
Inductive properties_arg :=
  | properties_undefined
  | properties_string (s : jsstring)
  | properties_object (p : properties).

(** A legacy builder class, as far as the library uses one:
    [new Builder()], [append] for every part, then [getBlob(type)].  The
    builder object is the sequence of parts appended so far. *)
Record BlobBuilderClass := {
  getBlob : list blob_part → option jsstring → outcome Blob
}.

(** What a global name is bound to. *)
Inductive global_binding :=
  | global_undefined
  | global_builder (class : BlobBuilderClass).

(** The environment of [createBlob]: the behaviour of [new Blob(..)] and
    the global scope in which the legacy builders are looked up. *)
Record Environment := {
  Blob_constructor : list blob_part → properties → outcome Blob;
  globals : gmap string global_binding
}.

(** The calls the library makes to the host, in order. *)
Inductive host_call :=
  | call_new_Blob (parts : list blob_part) (p : properties)
  | call_new_Builder (global : string)
  | call_append (part : blob_part)
  | call_getBlob (type : option jsstring).

(** The calls that belong to the legacy builders. *)
Definition legacy_call (c : host_call) : bool :=
  match c with
  | call_new_Blob _ _ => false
  | call_new_Builder _ | call_append _ | call_getBlob _ => true
  end.

(** A computation that calls the host: the calls made, and the result. *)
Definition traced (A : Type) : Type := list host_call * outcome A.

Definition tret {A} (a : A) : traced A := ([], Return a).
Definition tthrow {A} (e : js_error) : traced A := ([], Throw e).
Definition tlift {A} (o : outcome A) : traced A := ([], o).
Definition tcall {A} (c : host_call) (o : outcome A) : traced A := ([c], o).
Definition tbind {A B} (m : traced A) (k : A → traced B) : traced B :=
  match m with
  | (log, Return a) => let '(log', r) := k a in (log ++ log', r)
  | (log, Throw e) => (log, Throw e)
  end.

#[global] Instance traced_ret : MRet traced := λ A a, tret a.
#[global] Instance traced_bind : MBind traced := λ A B k m, tbind m k.

(** [typeof X !== 'undefined'] for a global name [X]. *)
Definition typeof_defined (g : gmap string global_binding) (x : string) : bool :=
  match g !! x with
  | Some (global_builder _) => true
  | Some global_undefined | None => false
  end.

(** Evaluating the identifier [X]: a [ReferenceError] when it is not
    declared. *)
Definition global_ref (g : gmap string global_binding) (x : string)
    : outcome (string * global_binding) :=
  match g !! x with
  | Some v => Return (x, v)
  | None => Throw (ReferenceError (x +:+ " is not defined"))
  end.

(** [new Builder()]. *)
Definition construct (b : string * global_binding) : traced BlobBuilderClass :=
  match b.2 with
  | global_builder class => tcall (call_new_Builder b.1) (Return class)
  | global_undefined => tthrow (TypeError "Builder is not a constructor")
  end.

(** The loop [for (i = 0; i < parts.length; i += 1) builder.append(parts[i])],
    on the builder's sequence of appended parts. *)
Fixpoint append_loop (parts : list blob_part) (builder : list blob_part)
    : traced (list blob_part) :=
  match parts with
  | [] => tret builder
  | part :: parts' =>
      builder' ← tcall (call_append part) (Return (builder ++ [part]));
      append_loop parts' builder'
  end.

(** The [catch] branch of [createBlob] once the error is a [TypeError]. *)
Definition legacy_createBlob (env : Environment)
    (parts : list blob_part) (p : properties) : traced Blob :=
  let g := globals env in
  Builder ← tlift
    (if typeof_defined g "BlobBuilder" then global_ref g "BlobBuilder"
     else if typeof_defined g "MSBlobBuilder" then global_ref g "MSBlobBuilder"
     else if typeof_defined g "MozBlobBuilder" then global_ref g "MozBlobBuilder"
     else global_ref g "WebKitBlobBuilder");
  class ← construct Builder;
  builder ← append_loop parts [];
  tcall (call_getBlob (properties_type p)) (getBlob class builder (properties_type p)).

(** [properties = properties || {}], then a string becomes
    [{ type: properties }]. *)
Definition properties_of (props : properties_arg) : properties :=
  match props with
  | properties_undefined => {| properties_type := None |}     (* undefined || {} *)
  | properties_string [] => {| properties_type := None |}     (* '' || {} *)
  | properties_string s => {| properties_type := Some s |}
  | properties_object p => p
  end.

Definition createBlob (env : Environment)
    (parts : option (list blob_part)) (props : properties_arg) : traced Blob :=
  let parts := default [] parts in                        (* parts || [] *)
  let props := properties_of props in
  match Blob_constructor env parts props with
  | Return blob => tcall (call_new_Blob parts props) (Return blob)
  | Throw e =>
      if negb (String.eqb (name e) "TypeError")
      then tcall (call_new_Blob parts props) (Throw e)
      else
        _ ← tcall (call_new_Blob parts props) (Return ());
        legacy_createBlob env parts props
  end.

Definition arrayBufferToBlob (env : Environment)
    (buffer : list byte) (type : properties_arg) : traced Blob :=
  createBlob env (Some [ArrayBufferPart buffer]) type.

(** ** Data URLs *)

Fixpoint take_while (p : Z → bool) (s : jsstring) : jsstring :=
  match s with
  | c :: s' => if p c then c :: take_while p s' else []
  | [] => []
  end.

Fixpoint drop_while (p : Z → bool) (s : jsstring) : jsstring :=
  match s with
  | c :: s' => if p c then drop_while p s' else s
  | [] => []
  end.

Fixpoint strip_prefix (prefix s : jsstring) : option jsstring :=
  match prefix, s with
  | [], _ => Some s
  | p :: prefix', c :: s' => if p =? c then strip_prefix prefix' s' else None
  | _ :: _, [] => None
  end.

Definition semicolon : Z := 59.
Definition comma : Z := 44.

(** The regular expression [/data:([^;]+)/] tried at the start of [s]:
    the text of group 1. *)
Definition match_data_here (s : jsstring) : option jsstring :=
  match strip_prefix (js "data:") s with
  | Some rest =>
      match take_while (fun c => negb (c =? semicolon)) rest with
      | [] => None
      | group => Some group
      end
  | None => None
  end.

(** [dataURL.match(/data:([^;]+)/)]: the leftmost match; [None] is [null]. *)
Fixpoint match_data (s : jsstring) : option jsstring :=
  match match_data_here s with
  | Some group => Some group
  | None =>
      match s with
      | _ :: s' => match_data s'
      | [] => None
      end
  end.

(** [dataURL.replace(/^[^,]+,/, '')]. *)
Definition replace_to_comma (s : jsstring) : jsstring :=
  match take_while (fun c => negb (c =? comma)) s,
        drop_while (fun c => negb (c =? comma)) s with
  | _ :: _, _ :: rest => rest
  | _, _ => s
  end.

Definition dataURLToBlob (env : Environment) (dataURL : jsstring) : traced Blob :=
  type ← tlift
    match match_data dataURL with
    | Some group => Return group
    | None => Throw (TypeError "Cannot read properties of null (reading '1')")
    end;
  let base64 := replace_to_comma dataURL in
  binary ← tlift (atob base64);
  let buff := binaryStringToArrayBuffer binary in
  createBlob env (Some [ArrayBufferPart buff])
    (properties_object {| properties_type := Some type |}).

Definition base64StringToBlob (env : Environment)
    (base64 : jsstring) (type : option jsstring) : traced Blob :=
  binary ← tlift (atob base64);
  let parts := [ArrayBufferPart (binaryStringToArrayBuffer binary)] in
  match type with
  | Some (c :: t) =>
      createBlob env (Some parts) (properties_object {| properties_type := Some (c :: t) |})
  | Some [] | None => createBlob env (Some parts) properties_undefined
  end.

Definition binaryStringToBlob (env : Environment)
    (binary : jsstring) (type : option jsstring) : traced Blob :=
  base64 ← tlift (btoa binary);
  base64StringToBlob env base64 type.

(** ** A standard host for blobs

    [new Blob(parts, options)] as the File API defines it: the bytes of
    the parts in order, and the type lower-cased, or empty when it has a
    character outside U+0020..U+007E. *)

(** UTF-16 code units to scalar values; a lone surrogate becomes U+FFFD. *)
Fixpoint scalar_values (s : jsstring) : list Z :=
  match s with
  | [] => []
  | h :: t =>
      if (55296 <=? h) && (h <=? 56319) then
        match t with
        | l :: t' =>
            if (56320 <=? l) && (l <=? 57343)
            then (65536 + (h - 55296) * 1024 + (l - 56320)) :: scalar_values t'
            else 65533 :: scalar_values t
        | [] => [65533]
        end
      else if (56320 <=? h) && (h <=? 57343) then 65533 :: scalar_values t
      else h :: scalar_values t
  end.

Definition utf8_encode_scalar (c : Z) : list byte :=
  if c <? 128 then [byte_of_Z c]
  else if c <? 2048 then
    [byte_of_Z (192 + c / 64); byte_of_Z (128 + c mod 64)]
  else if c <? 65536 then
    [byte_of_Z (224 + c / 4096); byte_of_Z (128 + c / 64 mod 64);
     byte_of_Z (128 + c mod 64)]
  else
    [byte_of_Z (240 + c / 262144); byte_of_Z (128 + c / 4096 mod 64);
     byte_of_Z (128 + c / 64 mod 64); byte_of_Z (128 + c mod 64)].

Definition utf8_encode (s : jsstring) : list byte :=
  concat (map utf8_encode_scalar (scalar_values s)).

Definition part_bytes (part : blob_part) : list byte :=
  match part with
  | ArrayBufferPart buffer => buffer
  | StringPart text => utf8_encode text
  | BlobPart blob => content blob
  end.

Definition printable_ascii (c : Z) : bool := (32 <=? c) && (c <=? 126).

Definition ascii_lowercase (c : Z) : Z :=
  if (65 <=? c) && (c <=? 90) then c + 32 else c.

Definition normalize_type (t : jsstring) : jsstring :=
  if forallb printable_ascii t then map ascii_lowercase t else [].

Definition standard_Blob (parts : list blob_part) (p : properties) : outcome Blob :=
  Return {| type := normalize_type (default [] (properties_type p));
            content := concat (map part_bytes parts) |}.

(** A current browser: [Blob] is constructible, no legacy builder. *)
Definition standard_environment : Environment :=
  {| Blob_constructor := standard_Blob; globals := ∅ |}.

(** An old browser: [new Blob] fails with a [TypeError], and the builder
    is found under the global name [builder_name]. *)
Definition standard_builder : BlobBuilderClass :=
  {| getBlob := λ parts type, standard_Blob parts {| properties_type := type |} |}.

Definition legacy_environment (builder_name : string) : Environment :=
  {| Blob_constructor := λ _ _, Throw (TypeError "Illegal constructor");
     globals := {[ builder_name := global_builder standard_builder ]} |}.

(** No way to build a blob: [new Blob] fails with a [TypeError] and no
    builder is declared. *)
Definition bare_environment : Environment :=
  {| Blob_constructor := λ _ _, Throw (TypeError "Illegal constructor");
     globals := ∅ |}.

(** ** Promises *)

(** Why a promise is rejected: the event the reader passed to [onerror],
    carrying the reader's error, or an error thrown in a [then] callback. *)
Inductive reason :=
  | error_event (error : js_error)
  | thrown (e : js_error).

Inductive promise (A : Type) : Type :=
  | Pending
  | Fulfilled (a : A)
  | Rejected (r : reason).
Arguments Pending {A}.
Arguments Fulfilled {A} a.
Arguments Rejected {A} r.

(** The [resolve] and [reject] functions of a promise: only a pending
    promise changes. *)
Definition resolve {A} (a : A) (p : promise A) : promise A :=
  match p with Pending => Fulfilled a | _ => p end.

Definition reject {A} (r : reason) (p : promise A) : promise A :=
  match p with Pending => Rejected r | _ => p end.

(** [p.then(f)], [f] synchronous. *)
Definition then_ {A B} (p : promise A) (f : A → outcome B) : promise B :=
  match p with
  | Pending => Pending
  | Fulfilled a =>
      match f a with
      | Return b => Fulfilled b
      | Throw e => Rejected (thrown e)
      end
  | Rejected r => Rejected r
  end.

(** ** The host's [FileReader] *)

(** The events a reader fires after a read was issued; [R] is the type
    of [e.target.result] for that read, [None] is [null].  The library
    listens to [loadend] and [error] only. *)
Inductive reader_event (R : Type) : Type :=
  | ev_load
  | ev_loadend (result : option R)
  | ev_error (error : js_error).
Arguments ev_load {R}.
Arguments ev_loadend {R} result.
Arguments ev_error {R} error.

(** A reader: [readAsBinaryString] may be missing; a read answers with
    the events fired, in order. *)
Record FileReader := {
  readAsBinaryString : option (Blob → list (reader_event jsstring));
  readAsArrayBuffer : Blob → list (reader_event (list byte))
}.

(** Firing one event on a reader whose [onloadend] and [onerror] are set. *)
Definition fire {R A} (onloadend : option R → promise A → promise A)
    (onerror : js_error → promise A → promise A)
    (ev : reader_event R) (p : promise A) : promise A :=
  match ev with
  | ev_load => p
  | ev_loadend result => onloadend result p
  | ev_error error => onerror error p
  end.

Definition fire_all {R A} (onloadend : option R → promise A → promise A)
    (onerror : js_error → promise A → promise A)
    (evs : list (reader_event R)) (p : promise A) : promise A :=
  foldl (λ p ev, fire onloadend onerror ev p) p evs.

(** How often the promise changed state while the events were fired. *)
Fixpoint settlements {R A} (onloadend : option R → promise A → promise A)
    (onerror : js_error → promise A → promise A)
    (evs : list (reader_event R)) (p : promise A) : nat :=
  match evs with
  | [] => 0
  | ev :: evs' =>
      let p' := fire onloadend onerror ev p in
      ((match p, p' with Pending, Pending => 0 | Pending, _ => 1 | _, _ => 0 end)
       + settlements onloadend onerror evs' p')%nat
  end.

(** The first event the library has a handler for. *)
Fixpoint first_signal {R} (evs : list (reader_event R)) : option (reader_event R) :=
  match evs with
  | [] => None
  | ev_load :: evs' => first_signal evs'
  | ev :: _ => Some ev
  end.

(** A reader that follows the File API: a read either succeeds ([load],
    then [loadend] with the result) or fails ([error], then [loadend] with
    a [null] result). [fails] decides which. *)
Definition standard_read {R} (fails : Blob → option js_error) (result : Blob → R)
    (blob : Blob) : list (reader_event R) :=
  match fails blob with
  | None => [ev_load; ev_loadend (Some (result blob))]
  | Some error => [ev_error error; ev_loadend None]
  end.

Definition standard_FileReader (hasBinaryString : bool)
    (fails : Blob → option js_error) : FileReader :=
  {| readAsBinaryString :=
       if hasBinaryString
       then Some (standard_read fails (λ blob, map byte_to_Z (content blob)))
       else None;
     readAsArrayBuffer := standard_read fails content |}.

(** ** AsyncReader: the [blobTo...] functions *)

(** An [onloadend] handler that resolves with a value computed from the
    result of the read. *)
Definition resolve_with {R A} (value : option R → A)
    (result : option R) (p : promise A) : promise A :=
  resolve (value result) p.


(** The handlers of [blobToBinaryString]. *)
Definition blobToBinaryString_onloadend_text
    (result : option jsstring) (p : promise jsstring) : promise jsstring :=
  let result := default [] result in                  (* e.target.result || '' *)
  resolve result p.

Definition blobToBinaryString_onloadend_buffer
    (result : option (list byte)) (p : promise jsstring) : promise jsstring :=
  (* e.target.result || '': a buffer is truthy; [new Uint8Array('')] has no bytes *)
  let result := default [] result in
  resolve (arrayBufferToBinaryString result) p.

Definition onerror {A} (error : js_error) (p : promise A) : promise A :=
  reject (error_event error) p.

Definition blobToBinaryString (reader : FileReader) (blob : Blob) : promise jsstring :=
  match readAsBinaryString reader with
  | Some readAsBinaryString =>                        (* hasBinaryString *)
      fire_all blobToBinaryString_onloadend_text onerror
        (readAsBinaryString blob) Pending
  | None =>
      fire_all blobToBinaryString_onloadend_buffer onerror
        (readAsArrayBuffer reader blob) Pending
  end.

Definition blobToBase64String (reader : FileReader) (blob : Blob) : promise jsstring :=
  then_ (blobToBinaryString reader blob) btoa.

Definition blobToDataURL (reader : FileReader) (blob : Blob) : promise jsstring :=
  then_ (blobToBase64String reader blob)
    (λ base64String, Return (js "data:" ++ type blob ++ js ";base64," ++ base64String)).

Definition blobToArrayBuffer_onloadend
    (result : option (list byte)) (p : promise (list byte)) : promise (list byte) :=
  let result := default [] result in       (* e.target.result || new ArrayBuffer(0) *)
  resolve result p.

Definition blobToArrayBuffer (reader : FileReader) (blob : Blob) : promise (list byte) :=
  fire_all blobToArrayBuffer_onloadend onerror (readAsArrayBuffer reader blob) Pending.

(** Property 2 of the spec composes the two directions:
    [blobToDataURL(o).then(dataURLToBlob)]. *)
Definition data_url_round_trip (reader : FileReader) (env : Environment)
    (o : Blob) : promise Blob :=
  then_ (blobToDataURL reader o) (λ dataURL, (dataURLToBlob env dataURL).2).

(** ** ImagePipeline: [canvasToBlob] *)

(** The [DOMException] that the methods of a canvas throw when its
    bitmap is not origin-clean (a "tainted" canvas). *)
Definition SecurityError (msg : string) : js_error :=
  {| name := "SecurityError"; message := msg |}.

(** A canvas.  [toBlob], when the canvas has it, either throws at the
    call, or returns, and the host then passes values to the callback, in
    order ([None] is [null]).  [toDataURL] throws or returns the
    serialization.  [Q] is the type of the [quality] argument, [None] an
    argument left out. *)
Record Canvas (Q : Type) := {
  toBlob : option (option jsstring → option Q → outcome (list (option Blob)));
  toDataURL : option jsstring → option Q → outcome jsstring
}.
Arguments toBlob {Q} _.
Arguments toDataURL {Q} _.

(** [new Promise(function (resolve) { canvas.toBlob(resolve, type, quality) })]:
    an error thrown in the executor rejects the promise; otherwise the
    calls of the callback are calls of [resolve]. *)
Definition toBlob_promise (called : outcome (list (option Blob)))
    : promise (option Blob) :=
  match called with
  | Return callbacks => foldl (λ p blob, resolve blob p) Pending callbacks
  | Throw e => reject (thrown e) Pending
  end.

Definition canvasToBlob {Q} (env : Environment) (canvas : Canvas Q)
    (type : option jsstring) (quality : option Q) : traced (promise (option Blob)) :=
  match toBlob canvas with
  | Some toBlob => mret (toBlob_promise (toBlob type quality))
  | None =>
      dataURL ← tlift (toDataURL canvas type quality);
      blob ← dataURLToBlob env dataURL;
      mret (Fulfilled (Some blob))                    (* Promise.resolve(..) *)
  end.

(** ** ObjectURLRegistry: [createObjectURL] and [revokeObjectURL] *)

(** The host's table of object URLs: how many it has issued, and the
    blobs behind the live ones. *)
Record url_store := {
  issued : nat;
  entries : gmap (list Z) Blob
}.

(** A [URL] object as far as the library uses one: its two methods, on
    the host's table. *)
Record URLObject := {
  URL_createObjectURL : Blob → url_store → jsstring * url_store;
  URL_revokeObjectURL : jsstring → url_store → url_store
}.

(** What the global names [URL] and [webkitURL] are bound to. *)
Inductive url_binding :=
  | url_undefined
  | url_object (o : URLObject).

(** [typeof X !== 'undefined'] for one of these names. *)
Definition url_typeof_defined (g : gmap string url_binding) (x : string) : bool :=
  match g !! x with
  | Some (url_object _) => true
  | Some url_undefined | None => false
  end.

(** Evaluating the identifier [X]. *)
Definition url_ref (g : gmap string url_binding) (x : string) : outcome url_binding :=
  match g !! x with
  | Some v => Return v
  | None => Throw (ReferenceError (x +:+ " is not defined"))
  end.

(** [(typeof URL !== 'undefined' ? URL : webkitURL)], then the member
    access on it, which throws on [undefined]. *)
Definition URL_or_webkitURL (g : gmap string url_binding) (member : string)
    : outcome URLObject :=
  match (if url_typeof_defined g "URL" then url_ref g "URL" else url_ref g "webkitURL") with
  | Return (url_object o) => Return o
  | Return url_undefined =>
      Throw (TypeError ("Cannot read properties of undefined (reading '" +:+ member +:+ "')"))
  | Throw e => Throw e
  end.

Definition createObjectURL (g : gmap string url_binding) (blob : Blob)
    (store : url_store) : outcome jsstring * url_store :=
  match URL_or_webkitURL g "createObjectURL" with
  | Return o =>
      let '(url, store') := URL_createObjectURL o blob store in (Return url, store')
  | Throw e => (Throw e, store)
  end.

Definition revokeObjectURL (g : gmap string url_binding) (url : jsstring)
    (store : url_store) : outcome () * url_store :=
  match URL_or_webkitURL g "revokeObjectURL" with
  | Return o => (Return (), URL_revokeObjectURL o url store)
  | Throw e => (Throw e, store)
  end.

(** A host's [URL] object after the File API: [createObjectURL] enters
    the blob under a new URL, [revokeObjectURL] removes the entry and
    does nothing for a URL that is not in the table.  [handle] names the
    URLs by their number of issue. *)
Definition standard_URL (handle : nat → jsstring) : URLObject :=
  {| URL_createObjectURL := λ blob store,
       (handle (issued store),
        {| issued := S (issued store);
           entries := <[handle (issued store) := blob]> (entries store) |});
     URL_revokeObjectURL := λ url store,
       {| issued := issued store; entries := delete url (entries store) |} |}.

(** Resolving an object URL through the host. *)
Definition resolve_url (store : url_store) (url : jsstring) : option Blob :=
  entries store !! url.

(** ** ImagePipeline: loading and drawing *)

(** An image element once loaded: what the library set on it, and the
    dimensions the host decoded. *)
Record Image := {
  src : jsstring;
  crossOrigin : option jsstring;
  width : Z;
  height : Z
}.

(** What the host fires on the image element after [src] was set. *)
Inductive image_event :=
  | image_load (width height : Z)
  | image_error (error : js_error).

(** [if (crossOrigin) img.crossOrigin = crossOrigin]: the attribute the
    element has when [src] is set; an empty string is falsy. *)
Definition crossOrigin_attribute (crossOrigin : option jsstring) : option jsstring :=
  match crossOrigin with
  | Some (c :: s) => Some (c :: s)
  | Some [] | None => None
  end.

(** [loadImage]; [decode] is the host's loader, which sees the source and
    the cross-origin attribute of the element. *)
Definition loadImage (decode : jsstring → option jsstring → list image_event)
    (src : jsstring) (crossOrigin : option jsstring) : promise Image :=
  let attribute := crossOrigin_attribute crossOrigin in
  let img width height :=
    {| src := src; crossOrigin := attribute; width := width; height := height |} in
  foldl (λ p ev,
           match ev with
           | image_load width height => resolve (img width height) p    (* onload *)
           | image_error error => reject (error_event error) p          (* onerror *)
           end)
        Pending (decode src attribute).

(** One call of [context.drawImage] with its nine arguments. *)
Record drawImage_call := {
  image : Image;
  sx : Z; sy : Z; sWidth : Z; sHeight : Z;
  dx : Z; dy : Z; dWidth : Z; dHeight : Z
}.

(** A canvas element: its size and what was drawn on it. *)
Record CanvasElement := {
  canvas_width : Z;
  canvas_height : Z;
  drawn : list drawImage_call
}.

Definition imgToCanvas (img : Image) : CanvasElement :=
  {| canvas_width := width img;
     canvas_height := height img;
     drawn := [ {| image := img;
                   sx := 0; sy := 0; sWidth := width img; sHeight := height img;
                   dx := 0; dy := 0; dWidth := width img; dHeight := height img |} ] |}.

(** The host of the image functions: the loader, and the methods a
    canvas element has in the state it is in. *)
Record ImageHost (Q : Type) := {
  decode : jsstring → option jsstring → list image_event;
  canvas_methods : CanvasElement → Canvas Q
}.
Arguments decode {Q} _.
Arguments canvas_methods {Q} _.

(** [type = type || 'image/png']. *)
Definition type_or_png (type : option jsstring) : jsstring :=
  match type with
  | Some (c :: t) => c :: t
  | Some [] | None => js "image/png"
  end.

(** [p.then(f)] where [f] returns a promise, which the result follows. *)
Definition then_promise {A B} (p : promise A) (f : A → outcome (promise B)) : promise B :=
  match p with
  | Pending => Pending
  | Fulfilled a =>
      match f a with
      | Return q => q
      | Throw e => Rejected (thrown e)
      end
  | Rejected r => Rejected r
  end.

Definition imgSrcToDataURL {Q} (host : ImageHost Q) (src : jsstring)
    (type : option jsstring) (crossOrigin : option jsstring) (quality : option Q)
    : promise jsstring :=
  let type := type_or_png type in
  then_ (then_ (loadImage (decode host) src crossOrigin) (λ img, Return (imgToCanvas img)))
    (λ canvas, toDataURL (canvas_methods host canvas) (Some type) quality).

Definition imgSrcToBlob {Q} (host : ImageHost Q) (env : Environment) (src : jsstring)
    (type : option jsstring) (crossOrigin : option jsstring) (quality : option Q)
    : promise (option Blob) :=
  let type := type_or_png type in
  then_promise
    (then_ (loadImage (decode host) src crossOrigin) (λ img, Return (imgToCanvas img)))
    (λ canvas, (canvasToBlob env (canvas_methods host canvas) (Some type) quality).2).

(** The global names [createBlob] tries for a legacy builder, in the
    order of its conditional expression. *)
Definition builder_names : list string :=
  ["BlobBuilder"; "MSBlobBuilder"; "MozBlobBuilder"; "WebKitBlobBuilder"].

(** * Properties *)

(** ** Facts about bytes *)

Lemma byte_to_Z_range (b : byte) : 0 <= byte_to_Z b <= 255.
Proof.
  unfold byte_to_Z. pose proof (Byte.to_N_bounded b) as H.
  split; [apply N2Z.is_nonneg|].
  change 255 with (Z.of_N 255). by apply N2Z.inj_le.
Qed.

Lemma byte_of_to_Z (b : byte) : byte_of_Z (byte_to_Z b) = b.
Proof.
  unfold byte_of_Z, byte_to_Z. by rewrite N2Z.id, Byte.of_to_N.
Qed.

Lemma byte_to_of_Z (z : Z) : 0 <= z <= 255 → byte_to_Z (byte_of_Z z) = z.
Proof.
  intros Hz. unfold byte_of_Z, byte_to_Z.
  destruct (Byte.of_N (Z.to_N z)) as [b|] eqn:E.
  - apply Byte.to_of_N in E. rewrite E. lia.
  - apply Byte.of_N_None_iff in E. lia.
Qed.

Lemma byte_to_Z_inj (a b : byte) : byte_to_Z a = byte_to_Z b → a = b.
Proof.
  intros H. rewrite <- (byte_of_to_Z a), <- (byte_of_to_Z b). by rewrite H.
Qed.

Lemma byte_of_Z_eq (z : Z) (b : byte) : z = byte_to_Z b → byte_of_Z z = b.
Proof. intros ->. apply byte_of_to_Z. Qed.

(** ** The loops compute maps *)

Lemma binaryStringToArrayBuffer_loop_spec todo :
  ∀ (done rest : jsstring) (arr tail : list byte),
    length rest = todo →
    length arr = length done →
    length tail = todo →
    binaryStringToArrayBuffer_loop todo (length done) (done ++ rest) (arr ++ tail)
    = arr ++ map (fun c => byte_of_Z (c mod 256)) rest.
Proof.
  induction todo as [|todo IH]; intros done rest arr tail Hr Ha Ht.
  - destruct rest; [|done]. destruct tail; [|done]. done.
  - destruct rest as [|c rest]; [done|]. destruct tail as [|t tail]; [done|].
    simpl in Hr, Ht. cbn [binaryStringToArrayBuffer_loop].
    unfold charCodeAt.
    rewrite (list_lookup_middle done rest c (length done) eq_refl).
    cbn [ToUint8].
    replace (length done) with (length arr + 0)%nat at 2 by lia.
    rewrite (insert_app_r arr (t :: tail) 0). cbn [insert list_insert].
    specialize (IH (done ++ [c]) rest (arr ++ [byte_of_Z (c mod 256)]) tail).
    rewrite !length_app in IH. cbn [length] in IH.
    replace (length done + 1)%nat with (S (length done)) in IH by lia.
    rewrite <- !app_assoc in IH. cbn [app] in IH.
    rewrite IH by lia. done.
Qed.

Lemma binaryStringToArrayBuffer_map (binary : jsstring) :
  binaryStringToArrayBuffer binary = map (fun c => byte_of_Z (c mod 256)) binary.
Proof.
  unfold binaryStringToArrayBuffer.
  apply (binaryStringToArrayBuffer_loop_spec (length binary) [] binary []
           (replicate (length binary) x00));
    [done | done | apply length_replicate].
Qed.

Lemma arrayBufferToBinaryString_loop_spec todo :
  ∀ (done rest : list byte) (binary : jsstring),
    length rest = todo →
    arrayBufferToBinaryString_loop todo (length done) (done ++ rest) binary
    = binary ++ map byte_to_Z rest.
Proof.
  induction todo as [|todo IH]; intros done rest binary Hr.
  - destruct rest; [|done]. cbn. by rewrite (app_nil_r binary).
  - destruct rest as [|b rest]; [done|]. simpl in Hr.
    cbn [arrayBufferToBinaryString_loop].
    rewrite (list_lookup_middle done rest b (length done) eq_refl).
    cbn [fromCharCode].
    rewrite Z.mod_small by (pose proof (byte_to_Z_range b); lia).
    specialize (IH (done ++ [b]) rest (binary ++ [byte_to_Z b])).
    rewrite length_app in IH. cbn [length] in IH.
    replace (length done + 1)%nat with (S (length done)) in IH by lia.
    rewrite <- !app_assoc in IH. cbn [app] in IH.
    rewrite IH by lia. done.
Qed.

Lemma arrayBufferToBinaryString_map (buffer : ArrayBuffer) :
  arrayBufferToBinaryString buffer = map byte_to_Z buffer.
Proof.
  unfold arrayBufferToBinaryString.
  exact (arrayBufferToBinaryString_loop_spec (length buffer) [] buffer [] eq_refl).
Qed.
(** ** ByteCodec: round trips and truncation *)

Lemma map_fmap {A B} (f : A → B) (l : list A) : map f l = f <$> l.
Proof. reflexivity. Qed.

Lemma byte_codec_bytes_round_trip (b : list byte) :
  binaryStringToArrayBuffer (arrayBufferToBinaryString b) = b.
Proof.
  rewrite binaryStringToArrayBuffer_map, arrayBufferToBinaryString_map.
  induction b as [|x b IH]; [done|]. cbn [map]. rewrite IH. f_equal.
  rewrite Z.mod_small by (pose proof (byte_to_Z_range x); lia).
  apply byte_of_to_Z.
Qed.

Lemma byte_codec_string_round_trip (s : jsstring) :
  binary_string s →
  arrayBufferToBinaryString (binaryStringToArrayBuffer s) = s.
Proof.
  rewrite binaryStringToArrayBuffer_map, arrayBufferToBinaryString_map.
  induction 1 as [|c s Hc _ IH]; [done|]. cbn [map]. rewrite IH. f_equal.
  unfold binary_char in Hc. rewrite Z.mod_small by lia. by apply byte_to_of_Z.
Qed.

Lemma length_binaryStringToArrayBuffer (s : jsstring) :
  length (binaryStringToArrayBuffer s) = length s.
Proof. by rewrite binaryStringToArrayBuffer_map, length_map. Qed.

Lemma length_arrayBufferToBinaryString (b : list byte) :
  length (arrayBufferToBinaryString b) = length b.
Proof. by rewrite arrayBufferToBinaryString_map, length_map. Qed.

Lemma arrayBufferToBinaryString_binary (b : list byte) :
  binary_string (arrayBufferToBinaryString b).
Proof.
  rewrite arrayBufferToBinaryString_map. apply Forall_forall.
  intros c Hc. apply list_elem_of_fmap in Hc as (x & -> & _).
  apply byte_to_Z_range.
Qed.

(** C1. Converting bytes to a binary string and back gives the bytes
    again, and converting a valid binary string (every code unit in
    0..255) to bytes and back gives the string again; both conversions
    keep the length, and so the order, of their input. *)
Theorem byte_codec_round_trip (b : list byte) (s : jsstring) :
  binary_string s →
  binaryStringToArrayBuffer (arrayBufferToBinaryString b) = b
  ∧ arrayBufferToBinaryString (binaryStringToArrayBuffer s) = s
  ∧ length (arrayBufferToBinaryString b) = length b
  ∧ length (binaryStringToArrayBuffer s) = length s.
Proof.
  intros Hs. split; [apply byte_codec_bytes_round_trip|].
  split; [by apply byte_codec_string_round_trip|].
  split; [apply length_arrayBufferToBinaryString|apply length_binaryStringToArrayBuffer].
Qed.

Lemma byte_codec_round_trip_witness :
  binary_string [104; 0; 255]
  ∧ binaryStringToArrayBuffer (arrayBufferToBinaryString ["h"; x00; xff]%byte)
    = ["h"; x00; xff]%byte
  ∧ arrayBufferToBinaryString (binaryStringToArrayBuffer [104; 0; 255]) = [104; 0; 255].
Proof.
  assert (H : binary_string [104; 0; 255]).
  { repeat (constructor; [unfold binary_char; lia|]). constructor. }
  split; [exact H|].
  destruct (byte_codec_round_trip ["h"; x00; xff]%byte [104; 0; 255] H) as (Hb & Hs & _).
  split; [exact Hb | exact Hs].
Defined.

(** C10. [binaryStringToArrayBuffer] is total on every string: the
    output has the length of the input, and byte [i] is the code unit at
    [i] modulo 256, so a code unit above 255 is truncated, not rejected. *)
Theorem binaryStringToArrayBuffer_truncates (binary : jsstring) :
  length (binaryStringToArrayBuffer binary) = length binary
  ∧ map byte_to_Z (binaryStringToArrayBuffer binary) = map (λ c, c mod 256) binary
  ∧ ∀ i : nat,
      byte_to_Z <$> (binaryStringToArrayBuffer binary !! i)
      = (λ c, c mod 256) <$> charCodeAt binary i.
Proof.
  assert (Hmap : map byte_to_Z (binaryStringToArrayBuffer binary)
                 = map (λ c, c mod 256) binary).
  { rewrite binaryStringToArrayBuffer_map, map_map. apply map_ext.
    intros c. apply byte_to_of_Z. pose proof (Z.mod_pos_bound c 256); lia. }
  split; [apply length_binaryStringToArrayBuffer|]. split; [exact Hmap|].
  intros i. unfold charCodeAt.
  rewrite <- !list_lookup_fmap, <- !map_fmap. by rewrite Hmap.
Qed.

(** A code unit above 255 is stored modulo 256. *)
Example binaryStringToArrayBuffer_above_255 :
  binaryStringToArrayBuffer [321; 8364; 65] = ["A"; xac; "A"]%byte.
Proof. vm_compute. reflexivity. Qed.

(** ** The host codec decodes what it encodes *)

Ltac div_mod_lia := Z.div_mod_to_equations; lia.

Lemma base64_char_cases (n : Z) :
  sextet n →
  (n < 26 ∧ base64_char n = 65 + n) ∨ (26 <= n < 52 ∧ base64_char n = 71 + n)
  ∨ (52 <= n < 62 ∧ base64_char n = n - 4) ∨ (n = 62 ∧ base64_char n = 43)
  ∨ (n = 63 ∧ base64_char n = 47).
Proof.
  unfold sextet, base64_char. intros Hn.
  destruct (Z.ltb_spec n 26); [left; lia|].
  destruct (Z.ltb_spec n 52); [right; left; lia|].
  destruct (Z.ltb_spec n 62); [right; right; left; lia|].
  destruct (Z.eqb_spec n 62); [right; right; right; left; lia|].
  right; right; right; right; lia.
Qed.

Ltac decide_tests :=
  repeat match goal with
         | _ => progress cbn [andb orb]
         | |- context [?a <? ?b] => destruct (Z.ltb_spec a b)
         | |- context [?a <=? ?b] => destruct (Z.leb_spec a b)
         | |- context [?a =? ?b] => destruct (Z.eqb_spec a b)
         end.

Lemma base64_value_char (n : Z) : sextet n → base64_value (base64_char n) = Some n.
Proof.
  intros Hn. unfold base64_value. pose proof Hn as Hn'. unfold sextet in Hn'.
  destruct (base64_char_cases n Hn) as [[? ->]|[[? ->]|[[? ->]|[[? ->]|[? ->]]]]];
    decide_tests; first [f_equal; lia | exfalso; lia].
Qed.

Lemma base64_char_plain (n : Z) :
  sextet n →
  ascii_whitespace (base64_char n) = false ∧ (base64_char n =? equals_sign) = false.
Proof.
  intros Hn. unfold ascii_whitespace, equals_sign. pose proof Hn as Hn'. unfold sextet in Hn'.
  destruct (base64_char_cases n Hn) as [[? ->]|[[? ->]|[[? ->]|[[? ->]|[? ->]]]]];
    decide_tests; first [done | exfalso; lia].
Qed.

(** Induction on a list three elements at a time. *)
Lemma list_ind3 {A} (P : list A → Prop) :
  P [] → (∀ a, P [a]) → (∀ a b, P [a; b]) →
  (∀ a b c rest, P rest → P (a :: b :: c :: rest)) →
  ∀ l, P l.
Proof.
  intros H0 H1 H2 H3 l.
  cut (P l ∧ (∀ a, P (a :: l)) ∧ (∀ a b, P (a :: b :: l))); [tauto|].
  induction l as [|x l (IH0 & IH1 & IH2)]; [auto|].
  split; [apply IH1|]. split; [intros a; apply IH2|]. intros a b. by apply H3.
Qed.

(** The shape of an encoding: the characters of some sextets that decode
    to the bytes, then the padding that fills the last group of four. *)
Lemma base64_encode_shape (bytes : list byte) :
  ∃ (sextets : list Z) (pad : jsstring),
    base64_encode bytes = map base64_char sextets ++ pad
    ∧ Forall sextet sextets
    ∧ decode_sextets sextets = bytes
    ∧ ((pad = [] ∧ Z.of_nat (length sextets) mod 4 = 0)
       ∨ (pad = [equals_sign] ∧ Z.of_nat (length sextets) mod 4 = 3)
       ∨ (pad = [equals_sign; equals_sign] ∧ Z.of_nat (length sextets) mod 4 = 2)).
Proof.
  induction bytes as [|a|a b|a b c rest IH] using list_ind3.
  - exists [], []. repeat split; [constructor|]. by left.
  - pose proof (byte_to_Z_range a) as Ha.
    exists [byte_to_Z a / 4; byte_to_Z a mod 4 * 16], [equals_sign; equals_sign].
    split; [done|]. split.
    { repeat (constructor; [unfold sextet; div_mod_lia|]). constructor. }
    split; [|right; right; done].
    cbn [decode_sextets]. f_equal. apply byte_of_Z_eq. div_mod_lia.
  - pose proof (byte_to_Z_range a) as Ha. pose proof (byte_to_Z_range b) as Hb.
    set (n := byte_to_Z a * 256 + byte_to_Z b).
    exists [n / 1024; n / 16 mod 64; n mod 16 * 4], [equals_sign].
    split; [done|]. split.
    { repeat (constructor; [unfold sextet, n; div_mod_lia|]). constructor. }
    split; [|right; left; done].
    cbn [decode_sextets].
    f_equal; [|f_equal]; apply byte_of_Z_eq; unfold n; div_mod_lia.
  - destruct IH as (sextets & pad & Henc & Hsx & Hdec & Hpad).
    pose proof (byte_to_Z_range a) as Ha. pose proof (byte_to_Z_range b) as Hb.
    pose proof (byte_to_Z_range c) as Hc.
    set (n := byte_to_Z a * 65536 + byte_to_Z b * 256 + byte_to_Z c).
    exists (n / 262144 :: n / 4096 mod 64 :: n / 64 mod 64 :: n mod 64 :: sextets), pad.
    split; [cbn [base64_encode map app]; fold n; by rewrite Henc|]. split.
    { repeat (constructor; [unfold sextet, n; div_mod_lia|]). exact Hsx. }
    split.
    + cbn [decode_sextets app]. rewrite Hdec.
      replace (n / 262144 * 262144 + n / 4096 mod 64 * 4096 + n / 64 mod 64 * 64 + n mod 64)
        with n by div_mod_lia.
      f_equal; [|f_equal; [|f_equal]]; apply byte_of_Z_eq; unfold n; div_mod_lia.
    + cbn [length].
      replace (Z.of_nat (S (S (S (S (length sextets))))))
        with (Z.of_nat (length sextets) + 1 * 4) by lia.
      by rewrite Z_mod_plus_full.
Qed.

Lemma filter_Forall_id {A} (P : A → Prop) `{!∀ x, Decision (P x)} (l : list A) :
  Forall P l → filter P l = l.
Proof.
  induction 1 as [|x l Hx _ IH]; [done|]. by rewrite filter_cons_True, IH.
Qed.

Lemma mapM_base64_value (sextets : list Z) :
  Forall sextet sextets → mapM base64_value (map base64_char sextets) = Some sextets.
Proof.
  intros H. rewrite map_fmap. apply mapM_fmap_Forall_Some.
  eapply Forall_impl; [exact H|]. intros n Hn. by apply base64_value_char.
Qed.

(** Removing the padding of [chars ++ pad] gives [chars] back. *)
Lemma remove_padding_encoded (sextets : list Z) (pad : jsstring) :
  Forall sextet sextets →
  (pad = [] ∧ Z.of_nat (length sextets) mod 4 = 0)
  ∨ (pad = [equals_sign] ∧ Z.of_nat (length sextets) mod 4 = 3)
  ∨ (pad = [equals_sign; equals_sign] ∧ Z.of_nat (length sextets) mod 4 = 2) →
  remove_padding (map base64_char sextets ++ pad) = map base64_char sextets.
Proof.
  intros Hsx Hpad. unfold remove_padding.
  assert (Hlast : ∀ c r, reverse (map base64_char sextets) = c :: r →
                         (c =? equals_sign) = false).
  { intros c r Hr. rewrite map_fmap, <- fmap_reverse in Hr.
    destruct (reverse sextets) as [|n rs] eqn:E; [done|].
    injection Hr as <- _. apply base64_char_plain.
    apply Forall_reverse in Hsx. rewrite E in Hsx. by inversion Hsx. }
  assert (Hlen : Z.of_nat (length (map base64_char sextets ++ pad)) mod 4 = 0).
  { rewrite length_app, length_map, Nat2Z.inj_add.
    destruct Hpad as [[-> H]|[[-> H]|[-> H]]]; cbn [length]; div_mod_lia. }
  rewrite Hlen. cbn [Z.eqb].
  destruct Hpad as [[-> H]|[[-> H]|[-> H]]].
  - rewrite app_nil_r.
    destruct (reverse (map base64_char sextets)) as [|c r] eqn:E; [done|].
    by rewrite (Hlast c r eq_refl).
  - rewrite reverse_snoc. rewrite Z.eqb_refl.
    destruct (reverse (map base64_char sextets)) as [|c r] eqn:E.
    + by rewrite <- (reverse_involutive (map _ _)), E.
    + rewrite (Hlast c r eq_refl). by rewrite <- E, reverse_involutive.
  - change [equals_sign; equals_sign] with ([equals_sign] ++ [equals_sign]).
    rewrite app_assoc, !reverse_snoc. rewrite !Z.eqb_refl.
    apply reverse_involutive.
Qed.

Lemma forgiving_base64_decode_encode (bytes : list byte) :
  forgiving_base64_decode (base64_encode bytes) = Some bytes.
Proof.
  destruct (base64_encode_shape bytes) as (sextets & pad & -> & Hsx & Hdec & Hpad).
  unfold forgiving_base64_decode.
  rewrite filter_Forall_id.
  2:{ apply Forall_app. split.
      - rewrite map_fmap. apply Forall_fmap. eapply Forall_impl; [exact Hsx|].
        intros n Hn. by apply base64_char_plain.
      - destruct Hpad as [[-> _]|[[-> _]|[-> _]]]; repeat constructor. }
  rewrite (remove_padding_encoded sextets pad Hsx Hpad).
  rewrite length_map.
  destruct (Z.eqb_spec (Z.of_nat (length sextets) mod 4) 1) as [E|_].
  { exfalso. destruct Hpad as [[_ H]|[[_ H]|[_ H]]]; lia. }
  by rewrite (mapM_base64_value sextets Hsx), Hdec.
Qed.

(** [atob] undoes the base64 encoding of any bytes. *)
Lemma atob_base64_encode (bytes : list byte) :
  atob (base64_encode bytes) = Return (map byte_to_Z bytes).
Proof. unfold atob. by rewrite forgiving_base64_decode_encode. Qed.

(** [btoa] of the binary string of some bytes is their base64 encoding. *)
Lemma btoa_binary_string (bytes : list byte) :
  btoa (map byte_to_Z bytes) = Return (base64_encode bytes).
Proof.
  unfold btoa.
  assert (forallb (λ c, (0 <=? c) && (c <=? 255)) (map byte_to_Z bytes) = true) as ->.
  { apply forallb_forall. intros c Hc. apply in_map_iff in Hc as (b & <- & _).
    pose proof (byte_to_Z_range b). apply andb_true_iff. lia. }
  do 2 f_equal. rewrite map_map. rewrite <- (map_id bytes) at 2.
  apply map_ext. intros b. apply byte_of_to_Z.
Qed.

(** ** BinaryObjectFactory: [createBlob] *)

Lemma createBlob_returned env parts props blob :
  Blob_constructor env (default [] parts) (properties_of props) = Return blob →
  createBlob env parts props
  = ([call_new_Blob (default [] parts) (properties_of props)], Return blob).
Proof. intros H. unfold createBlob. by rewrite H. Qed.

Lemma createBlob_rethrown env parts props e :
  Blob_constructor env (default [] parts) (properties_of props) = Throw e →
  name e ≠ "TypeError" →
  createBlob env parts props
  = ([call_new_Blob (default [] parts) (properties_of props)], Throw e).
Proof.
  intros H Hname. unfold createBlob. rewrite H.
  apply String.eqb_neq in Hname. by rewrite Hname.
Qed.

Lemma createBlob_fallback env parts props e :
  Blob_constructor env (default [] parts) (properties_of props) = Throw e →
  name e = "TypeError" →
  createBlob env parts props
  = (call_new_Blob (default [] parts) (properties_of props)
       :: (legacy_createBlob env (default [] parts) (properties_of props)).1,
     (legacy_createBlob env (default [] parts) (properties_of props)).2).
Proof.
  intros H Hname. unfold createBlob. rewrite H, Hname. cbn [String.eqb negb].
  change (negb ("TypeError" =? "TypeError")%string) with false. cbv iota.
  unfold mbind, traced_bind, tbind, tcall.
  by destruct (legacy_createBlob _ _ _) as [log [blob|e']].
Qed.

(** The appending loop appends every part, in order. *)
Lemma append_loop_spec (parts builder : list blob_part) :
  append_loop parts builder = (map call_append parts, Return (builder ++ parts)).
Proof.
  revert builder. induction parts as [|part parts IH]; intros builder.
  - cbn. by rewrite app_nil_r.
  - cbn [append_loop]. unfold mbind, traced_bind, tbind, tcall.
    rewrite IH. by rewrite <- app_assoc.
Qed.

(** C3. [createBlob] calls the canonical constructor first.  What it
    returns is returned; an error it throws whose name is not
    ["TypeError"] is rethrown unchanged with no other host call made;
    only an error named ["TypeError"] leads to the legacy builder chain,
    so a call to a legacy builder implies that such an error was thrown. *)
Theorem createBlob_fallback_gate (env : Environment)
    (parts : option (list blob_part)) (props : properties_arg) :
  let ps := default [] parts in
  let pr := properties_of props in
  (∃ rest, (createBlob env parts props).1 = call_new_Blob ps pr :: rest)
  ∧ (∀ blob, Blob_constructor env ps pr = Return blob →
       createBlob env parts props = ([call_new_Blob ps pr], Return blob))
  ∧ (∀ e, Blob_constructor env ps pr = Throw e → name e ≠ "TypeError" →
       createBlob env parts props = ([call_new_Blob ps pr], Throw e))
  ∧ (∀ e, Blob_constructor env ps pr = Throw e → name e = "TypeError" →
       createBlob env parts props
       = (call_new_Blob ps pr :: (legacy_createBlob env ps pr).1,
          (legacy_createBlob env ps pr).2))
  ∧ (existsb legacy_call (createBlob env parts props).1 = true →
       ∃ e, Blob_constructor env ps pr = Throw e ∧ name e = "TypeError").
Proof.
  intros ps pr. subst ps pr.
  destruct (Blob_constructor env (default [] parts) (properties_of props))
    as [blob|e] eqn:Hctor.
  - rewrite (createBlob_returned _ _ _ _ Hctor).
    split; [by eexists|]. split; [by intros ? [= <-]|].
    split; [done|]. split; [done|]. cbn. done.
  - destruct (decide (name e = "TypeError")) as [Hname|Hname].
    + rewrite (createBlob_fallback _ _ _ _ Hctor Hname).
      split; [by eexists|]. split; [done|].
      split; [by intros ? [= <-] ?|]. split; [by intros ? [= <-] _|].
      intros _. by exists e.
    + rewrite (createBlob_rethrown _ _ _ _ Hctor Hname).
      split; [by eexists|]. split; [done|].
      split; [by intros ? [= <-] _|]. split; [by intros ? [= <-] ?|].
      cbn. done.
Qed.

(** An error that is not a type error passes through, builders or not. *)
Lemma createBlob_fallback_gate_witness :
  let env := {| Blob_constructor := λ _ _, Throw (ReferenceError "Blob is not defined");
                globals := {[ "BlobBuilder" := global_builder standard_builder ]} |} in
  createBlob env None properties_undefined
  = ([call_new_Blob [] {| properties_type := None |}],
     Throw (ReferenceError "Blob is not defined")).
Proof.
  intros env.
  destruct (createBlob_fallback_gate env None properties_undefined)
    as (_ & _ & Hrethrow & _).
  apply Hrethrow; [reflexivity|]. cbn. discriminate.
Defined.

(** In an old browser the parts are appended in order and the blob is
    finished with the requested type. *)
Example createBlob_legacy :
  createBlob (legacy_environment "MSBlobBuilder")
    (Some [ArrayBufferPart ["h"]%byte; StringPart (js "i")])
    (properties_string (js "text/plain"))
  = ([call_new_Blob [ArrayBufferPart ["h"]%byte; StringPart (js "i")]
        {| properties_type := Some (js "text/plain") |};
      call_new_Builder "MSBlobBuilder";
      call_append (ArrayBufferPart ["h"]%byte);
      call_append (StringPart (js "i"));
      call_getBlob (Some (js "text/plain"))],
     Return {| type := js "text/plain"; content := ["h"; "i"]%byte |}).
Proof. vm_compute. reflexivity. Qed.

(** C6. When the canonical constructor fails with a type error and none
    of [BlobBuilder], [MSBlobBuilder], [MozBlobBuilder],
    [WebKitBlobBuilder] is declared, [createBlob] throws the reference
    error of the last lookup; it returns no blob. *)
Theorem createBlob_unsupported (env : Environment)
    (parts : option (list blob_part)) (props : properties_arg) (e : js_error) :
  Blob_constructor env (default [] parts) (properties_of props) = Throw e →
  name e = "TypeError" →
  globals env !! "BlobBuilder" = None →
  globals env !! "MSBlobBuilder" = None →
  globals env !! "MozBlobBuilder" = None →
  globals env !! "WebKitBlobBuilder" = None →
  createBlob env parts props
  = ([call_new_Blob (default [] parts) (properties_of props)],
     Throw (ReferenceError "WebKitBlobBuilder is not defined"))
  ∧ ∀ blob, (createBlob env parts props).2 ≠ Return blob.
Proof.
  intros Hctor Hname H1 H2 H3 H4.
  assert (createBlob env parts props
          = ([call_new_Blob (default [] parts) (properties_of props)],
             Throw (ReferenceError "WebKitBlobBuilder is not defined"))) as ->.
  { rewrite (createBlob_fallback _ _ _ _ Hctor Hname).
    unfold legacy_createBlob, typeof_defined, global_ref.
    rewrite H1, H2, H3, H4. reflexivity. }
  split; [done|]. by intros blob.
Qed.

Lemma createBlob_unsupported_witness :
  createBlob bare_environment (Some [StringPart (js "abc")]) (properties_string (js "text/plain"))
  = ([call_new_Blob [StringPart (js "abc")] {| properties_type := Some (js "text/plain") |}],
     Throw (ReferenceError "WebKitBlobBuilder is not defined")).
Proof.
  apply (createBlob_unsupported bare_environment (Some [StringPart (js "abc")])
           (properties_string (js "text/plain")) (TypeError "Illegal constructor"));
    reflexivity.
Defined.

(** ** [dataURLToBlob] on a concrete URL *)

(** C7. [dataURLToBlob("data:text/plain;base64,aGVsbG8=")] asks the host
    for a blob of type ["text/plain"] over the five bytes of ["hello"],
    and a standard host returns that blob. *)
Theorem dataURLToBlob_hello :
  (∀ env, dataURLToBlob env (js "data:text/plain;base64,aGVsbG8=")
          = createBlob env (Some [ArrayBufferPart [x68; x65; x6c; x6c; x6f]])
              (properties_object {| properties_type := Some (js "text/plain") |}))
  ∧ (dataURLToBlob standard_environment (js "data:text/plain;base64,aGVsbG8=")).2
    = Return {| type := js "text/plain"; content := [x68; x65; x6c; x6c; x6f] |}.
Proof.
  split; [|vm_compute; reflexivity].
  intros env. unfold dataURLToBlob.
  change (match_data (js "data:text/plain;base64,aGVsbG8="))
    with (Some (js "text/plain")).
  change (atob (replace_to_comma (js "data:text/plain;base64,aGVsbG8=")))
    with (@Return jsstring (js "hello")).
  change (binaryStringToArrayBuffer (js "hello")) with [x68; x65; x6c; x6c; x6f].
  unfold mbind, traced_bind, tbind, tlift.
  by destruct (createBlob env _ _) as [log r].
Qed.

(** ** AsyncReader: how a read settles the promise *)

Section settle.
Context {R A : Type} (value : option R → A).

(** The [onloadend] handlers of the readers all have this form. *)
Local Abbreviation onloadend := (resolve_with value).

Lemma fire_settled (ev : reader_event R) (p : promise A) :
  p ≠ Pending → fire onloadend onerror ev p = p.
Proof. by destruct ev, p. Qed.

Lemma fire_all_settled (evs : list (reader_event R)) (p : promise A) :
  p ≠ Pending → fire_all onloadend onerror evs p = p.
Proof.
  revert p. induction evs as [|ev evs IH]; intros p Hp; [done|].
  unfold fire_all in *. cbn [foldl]. rewrite fire_settled by done. by apply IH.
Qed.

Lemma settlements_settled (evs : list (reader_event R)) (p : promise A) :
  p ≠ Pending → settlements onloadend onerror evs p = 0%nat.
Proof.
  revert p. induction evs as [|ev evs IH]; intros p Hp; [done|].
  cbn [settlements]. rewrite fire_settled by done. rewrite IH by done.
  by destruct p.
Qed.

(** The promise is decided by the first event that has a handler. *)
Lemma fire_all_first_signal (evs : list (reader_event R)) :
  fire_all onloadend onerror evs Pending
  = match first_signal evs with
    | Some (ev_loadend result) => Fulfilled (value result)
    | Some (ev_error error) => Rejected (error_event error)
    | Some ev_load | None => Pending
    end.
Proof.
  induction evs as [|[|result|error] evs IH]; [done|exact IH|..].
  - cbn [first_signal]. unfold fire_all. cbn [foldl fire].
    by apply fire_all_settled.
  - cbn [first_signal]. unfold fire_all. cbn [foldl fire].
    by apply fire_all_settled.
Qed.

(** The promise changes state once if there is such an event, never
    otherwise. *)
Lemma settlements_first_signal (evs : list (reader_event R)) :
  settlements onloadend onerror evs Pending
  = match first_signal evs with Some _ => 1%nat | None => 0%nat end.
Proof.
  induction evs as [|[|result|error] evs IH]; [done|exact IH|..].
  - cbn [first_signal settlements fire]. unfold resolve_with at 1 2. cbn [resolve].
    by rewrite settlements_settled.
  - cbn [first_signal settlements fire]. unfold onerror at 1 2. cbn [reject].
    by rewrite settlements_settled.
Qed.

(** A standard read gives exactly one signal: its result or its error. *)
Lemma first_signal_standard_read (fails : Blob → option js_error)
    (result : Blob → R) (blob : Blob) :
  first_signal (standard_read fails result blob)
  = Some (match fails blob with
          | None => ev_loadend (Some (result blob))
          | Some error => ev_error error
          end).
Proof. unfold standard_read. by destruct (fails blob). Qed.
End settle.

(** C9. [blobToArrayBuffer] issues a buffer read; the first signal of the
    read decides the promise: a [loadend] with a result resolves with that
    buffer, a [loadend] without a result resolves with an empty buffer, an
    [error] rejects with the reader's error event.  The promise changes
    state at most once, and exactly once as soon as the reader signals;
    with a reader that follows the File API that is: resolved with the
    blob's bytes, or rejected, settled once. *)
Theorem blobToArrayBuffer_settles (reader : FileReader) (blob : Blob) :
  blobToArrayBuffer reader blob
  = match first_signal (readAsArrayBuffer reader blob) with
    | Some (ev_loadend (Some buffer)) => Fulfilled buffer
    | Some (ev_loadend None) => Fulfilled []
    | Some (ev_error error) => Rejected (error_event error)
    | Some ev_load | None => Pending
    end
  ∧ settlements blobToArrayBuffer_onloadend onerror
      (readAsArrayBuffer reader blob) Pending
    = match first_signal (readAsArrayBuffer reader blob) with
      | Some _ => 1%nat
      | None => 0%nat
      end
  ∧ ∀ hasBinaryString fails,
      blobToArrayBuffer (standard_FileReader hasBinaryString fails) blob
      = match fails blob with
        | None => Fulfilled (content blob)
        | Some error => Rejected (error_event error)
        end
      ∧ settlements blobToArrayBuffer_onloadend onerror
          (readAsArrayBuffer (standard_FileReader hasBinaryString fails) blob) Pending
        = 1%nat.
Proof.
  split; [|split].
  - unfold blobToArrayBuffer.
    etrans; [exact (fire_all_first_signal (default []) _)|].
    by destruct (first_signal _) as [[|[buffer|]|error]|].
  - apply (settlements_first_signal (default [])).
  - intros hasBinaryString fails. split.
    + unfold blobToArrayBuffer.
      etrans; [exact (fire_all_first_signal (default []) _)|].
      cbn [readAsArrayBuffer standard_FileReader].
      rewrite first_signal_standard_read. by destruct (fails blob).
    + etrans; [exact (settlements_first_signal (default []) _)|].
      cbn [readAsArrayBuffer standard_FileReader].
      by rewrite first_signal_standard_read.
Qed.

(** A result that is absent while the promise is pending. *)
Example blobToArrayBuffer_absent_result :
  blobToArrayBuffer
    {| readAsBinaryString := None; readAsArrayBuffer := λ _, [ev_loadend None] |}
    {| type := js "text/plain"; content := ["h"; "i"]%byte |}
  = Fulfilled [].
Proof. reflexivity. Qed.

Lemma blobToBinaryString_text (blob : Blob) text_read buffer_read :
  blobToBinaryString
    {| readAsBinaryString := Some text_read; readAsArrayBuffer := buffer_read |} blob
  = match first_signal (text_read blob) with
    | Some (ev_loadend (Some text)) => Fulfilled text
    | Some (ev_loadend None) => Fulfilled []
    | Some (ev_error error) => Rejected (error_event error)
    | Some ev_load | None => Pending
    end.
Proof.
  unfold blobToBinaryString. cbn [readAsBinaryString].
  etrans; [exact (fire_all_first_signal (default []) _)|].
  by destruct (first_signal _) as [[|[text|]|error]|].
Qed.

Lemma blobToBinaryString_buffer (blob : Blob) buffer_read :
  blobToBinaryString
    {| readAsBinaryString := None; readAsArrayBuffer := buffer_read |} blob
  = match first_signal (buffer_read blob) with
    | Some (ev_loadend (Some buffer)) => Fulfilled (arrayBufferToBinaryString buffer)
    | Some (ev_loadend None) => Fulfilled []
    | Some (ev_error error) => Rejected (error_event error)
    | Some ev_load | None => Pending
    end.
Proof.
  unfold blobToBinaryString. cbn [readAsBinaryString readAsArrayBuffer].
  etrans; [exact (fire_all_first_signal
                    (λ r, arrayBufferToBinaryString (default [] r)) _)|].
  by destruct (first_signal _) as [[|[buffer|]|error]|].
Qed.

Lemma blobToBinaryString_standard (blob : Blob) hasBinaryString fails :
  blobToBinaryString (standard_FileReader hasBinaryString fails) blob
  = match fails blob with
    | None => Fulfilled (map byte_to_Z (content blob))
    | Some error => Rejected (error_event error)
    end.
Proof.
  destruct hasBinaryString; unfold standard_FileReader.
  - rewrite blobToBinaryString_text, first_signal_standard_read.
    by destruct (fails blob).
  - rewrite blobToBinaryString_buffer, first_signal_standard_read.
    destruct (fails blob); [done|]. by rewrite arrayBufferToBinaryString_map.
Qed.

(** C5. With the direct text read, [blobToBinaryString] resolves with the
    text result, or the empty string when there is none; without it, with
    [arrayBufferToBinaryString] of the buffer result.  On a reader that
    follows the File API the two ways give the same promise, and a read
    that succeeds resolves with the blob's bytes, one character each. *)
Theorem blobToBinaryString_paths_agree (blob : Blob) :
  (∀ text_read buffer_read,
     blobToBinaryString
       {| readAsBinaryString := Some text_read; readAsArrayBuffer := buffer_read |} blob
     = match first_signal (text_read blob) with
       | Some (ev_loadend (Some text)) => Fulfilled text
       | Some (ev_loadend None) => Fulfilled []
       | Some (ev_error error) => Rejected (error_event error)
       | Some ev_load | None => Pending
       end)
  ∧ (∀ buffer_read,
       blobToBinaryString
         {| readAsBinaryString := None; readAsArrayBuffer := buffer_read |} blob
       = match first_signal (buffer_read blob) with
         | Some (ev_loadend (Some buffer)) => Fulfilled (arrayBufferToBinaryString buffer)
         | Some (ev_loadend None) => Fulfilled []
         | Some (ev_error error) => Rejected (error_event error)
         | Some ev_load | None => Pending
         end)
  ∧ (∀ fails,
       blobToBinaryString (standard_FileReader true fails) blob
       = blobToBinaryString (standard_FileReader false fails) blob)
  ∧ (∀ hasBinaryString,
       blobToBinaryString (standard_FileReader hasBinaryString (λ _, None)) blob
       = Fulfilled (map byte_to_Z (content blob))).
Proof.
  split; [apply blobToBinaryString_text|].
  split; [apply blobToBinaryString_buffer|]. split.
  - intros fails. by rewrite !blobToBinaryString_standard.
  - intros hasBinaryString. by rewrite blobToBinaryString_standard.
Qed.

(** Property 6 of the spec: ["abc"] to a blob and back. *)
Example binaryStringToBlob_abc :
  (binaryStringToBlob standard_environment (js "abc") (Some (js "text/plain"))).2
  = Return {| type := js "text/plain"; content := ["a"; "b"; "c"]%byte |}
  ∧ blobToBinaryString (standard_FileReader false (λ _, None))
      {| type := js "text/plain"; content := ["a"; "b"; "c"]%byte |}
    = Fulfilled (js "abc").
Proof. split; vm_compute; reflexivity. Qed.

Lemma blobToBase64String_standard hasBinaryString fails blob :
  fails blob = None →
  blobToBase64String (standard_FileReader hasBinaryString fails) blob
  = Fulfilled (base64_encode (content blob)).
Proof.
  intros Hok. unfold blobToBase64String.
  rewrite blobToBinaryString_standard, Hok.
  cbn [then_]. by rewrite btoa_binary_string.
Qed.

(** C4. When the read succeeds, [blobToDataURL] resolves with ["data:"],
    the blob's own type, [";base64,"] and the base64 encoding of the
    blob's bytes; whatever the reader does, the type in the URL is the
    blob's [type] and the rest is what [blobToBase64String] resolved with. *)
Theorem blobToDataURL_format (hasBinaryString : bool)
    (fails : Blob → option js_error) (blob : Blob) :
  fails blob = None →
  blobToDataURL (standard_FileReader hasBinaryString fails) blob
  = Fulfilled (js "data:" ++ type blob ++ js ";base64," ++ base64_encode (content blob))
  ∧ ∀ reader base64String,
      blobToBase64String reader blob = Fulfilled base64String →
      blobToDataURL reader blob
      = Fulfilled (js "data:" ++ type blob ++ js ";base64," ++ base64String).
Proof.
  intros Hok. split.
  - unfold blobToDataURL. by rewrite blobToBase64String_standard.
  - intros reader base64String H. unfold blobToDataURL. by rewrite H.
Qed.

Lemma blobToDataURL_format_witness :
  blobToDataURL (standard_FileReader false (λ _, None))
    {| type := js "text/plain"; content := ["h"; "e"; "l"; "l"; "o"]%byte |}
  = Fulfilled (js "data:text/plain;base64,aGVsbG8=").
Proof.
  exact (proj1 (blobToDataURL_format false (λ _, None)
                  {| type := js "text/plain"; content := ["h"; "e"; "l"; "l"; "o"]%byte |}
                  eq_refl)).
Defined.

(** ** Data URLs: parsing what [blobToDataURL] builds *)

Lemma strip_prefix_app (prefix s : jsstring) : strip_prefix prefix (prefix ++ s) = Some s.
Proof.
  induction prefix as [|p prefix IH]; [by destruct s|].
  cbn [app strip_prefix]. by rewrite Z.eqb_refl.
Qed.

Lemma take_while_stop (p : Z → bool) (pre : jsstring) (x : Z) (rest : jsstring) :
  Forall (λ c, p c = true) pre → p x = false →
  take_while p (pre ++ x :: rest) = pre.
Proof.
  intros Hpre Hx. induction Hpre as [|c pre Hc _ IH]; cbn [app take_while].
  - by rewrite Hx.
  - by rewrite Hc, IH.
Qed.

Lemma drop_while_stop (p : Z → bool) (pre : jsstring) (x : Z) (rest : jsstring) :
  Forall (λ c, p c = true) pre → p x = false →
  drop_while p (pre ++ x :: rest) = x :: rest.
Proof.
  intros Hpre Hx. induction Hpre as [|c pre Hc _ IH]; cbn [app drop_while].
  - by rewrite Hx.
  - by rewrite Hc, IH.
Qed.

Lemma match_data_at_start (s group : jsstring) :
  match_data_here s = Some group → match_data s = Some group.
Proof. intros H. destruct s; cbn [match_data]; by rewrite H. Qed.

Lemma not_elem_of_Forall_neq (x : Z) (s : jsstring) :
  x ∉ s → Forall (λ c, negb (c =? x) = true) s.
Proof.
  intros Hx. apply Forall_forall. intros c Hc.
  destruct (Z.eqb_spec c x) as [->|]; [done|reflexivity].
Qed.

(** The type is read back when it is not empty and has no [;]. *)
Lemma match_data_url (t rest : jsstring) :
  t ≠ [] → semicolon ∉ t →
  match_data (js "data:" ++ t ++ js ";base64," ++ rest) = Some t.
Proof.
  intros Hne Hsemi. apply match_data_at_start. unfold match_data_here.
  rewrite strip_prefix_app.
  change (js ";base64," ++ rest) with (semicolon :: js "base64," ++ rest).
  rewrite take_while_stop; [by destruct t|by apply not_elem_of_Forall_neq|done].
Qed.

(** The payload is what follows the first comma when the type has none. *)
Lemma replace_to_comma_url (t rest : jsstring) :
  comma ∉ t →
  replace_to_comma (js "data:" ++ t ++ js ";base64," ++ rest) = rest.
Proof.
  intros Hcomma. unfold replace_to_comma.
  assert (js "data:" ++ t ++ js ";base64," ++ rest
          = (js "data:" ++ t ++ js ";base64") ++ comma :: rest) as ->.
  { change (js ";base64,") with (js ";base64" ++ [comma]).
    by rewrite <- !app_assoc. }
  assert (Forall (λ c, negb (c =? comma) = true) (js "data:" ++ t ++ js ";base64")).
  { apply Forall_app. split; [by repeat constructor|].
    apply Forall_app. split; [by apply not_elem_of_Forall_neq|by repeat constructor]. }
  rewrite take_while_stop, drop_while_stop by done. done.
Qed.

Lemma tbind_lift_return {A B} (a : A) (k : A → traced B) :
  tlift (Return a) ≫= k = k a.
Proof. unfold mbind, traced_bind, tbind, tlift. by destruct (k a). Qed.

Lemma dataURLToBlob_url (env : Environment) (t : jsstring) (bytes : list byte) :
  t ≠ [] → semicolon ∉ t → comma ∉ t →
  dataURLToBlob env (js "data:" ++ t ++ js ";base64," ++ base64_encode bytes)
  = createBlob env (Some [ArrayBufferPart bytes])
      (properties_object {| properties_type := Some t |}).
Proof.
  intros Hne Hsemi Hcomma. unfold dataURLToBlob.
  rewrite match_data_url, replace_to_comma_url, atob_base64_encode by done.
  rewrite !tbind_lift_return.
  by rewrite <- arrayBufferToBinaryString_map, byte_codec_bytes_round_trip.
Qed.

(** C2, as the spec states it, fails: a blob with the default, empty
    type gives the URL ["data:;base64,aGk="], in which the regular
    expression finds no type; [dataURLToBlob] throws. *)
Lemma data_url_round_trip_empty_type :
  let o := {| type := []; content := ["h"; "i"]%byte |} in
  blobToDataURL (standard_FileReader true (λ _, None)) o
  = Fulfilled (js "data:;base64,aGk=")
  ∧ data_url_round_trip (standard_FileReader true (λ _, None)) standard_environment o
    = Rejected (thrown (TypeError "Cannot read properties of null (reading '1')"))
  ∧ data_url_round_trip (standard_FileReader true (λ _, None)) standard_environment o
    ≠ Fulfilled o.
Proof. split; [|split]; [vm_compute; reflexivity..|discriminate]. Qed.

(** A type with a parameter comes back cut at the [;]. *)
Example data_url_round_trip_parameter :
  data_url_round_trip (standard_FileReader true (λ _, None)) standard_environment
    {| type := js "text/plain;charset=utf-8"; content := ["h"; "i"]%byte |}
  = Fulfilled {| type := js "text/plain"; content := ["h"; "i"]%byte |}.
Proof. vm_compute. reflexivity. Qed.

(** A type with a comma moves the cut of the payload: [atob] throws. *)
Example data_url_round_trip_comma :
  data_url_round_trip (standard_FileReader true (λ _, None)) standard_environment
    {| type := js "a,b"; content := ["h"; "i"]%byte |}
  = Rejected (thrown (InvalidCharacterError "The string to be decoded is not correctly encoded.")).
Proof. vm_compute. reflexivity. Qed.

(** C2, amended. For a blob whose type is not empty, has neither [;] nor
    [,], and is in the form the host gives every blob's type, a
    successful read and a standard host give the same blob back: the
    same type and the same bytes. *)
Theorem data_url_round_trip_identity (hasBinaryString : bool)
    (fails : Blob → option js_error) (o : Blob) :
  fails o = None →
  type o ≠ [] → semicolon ∉ type o → comma ∉ type o →
  normalize_type (type o) = type o →
  data_url_round_trip (standard_FileReader hasBinaryString fails) standard_environment o
  = Fulfilled o.
Proof.
  intros Hok Hne Hsemi Hcomma Hnorm. unfold data_url_round_trip, blobToDataURL.
  rewrite blobToBase64String_standard by done. cbn [then_].
  rewrite dataURLToBlob_url by done.
  unfold createBlob, standard_environment, Blob_constructor, standard_Blob.
  cbn [default properties_of properties_type tcall snd map part_bytes concat id].
  rewrite Hnorm, app_nil_r. by destruct o.
Qed.

Lemma data_url_round_trip_identity_witness :
  data_url_round_trip (standard_FileReader false (λ _, None)) standard_environment
    {| type := js "image/png"; content := [x89; "P"; "N"; "G"; x00; xff]%byte |}
  = Fulfilled {| type := js "image/png"; content := [x89; "P"; "N"; "G"; x00; xff]%byte |}.
Proof.
  apply (data_url_round_trip_identity false (λ _, None)
           {| type := js "image/png"; content := [x89; "P"; "N"; "G"; x00; xff]%byte |}).
  - reflexivity.
  - discriminate.
  - vm_compute. intros H. repeat (inversion H as [|? ? ? H']; clear H; rename H' into H).
  - vm_compute. intros H. repeat (inversion H as [|? ? ? H']; clear H; rename H' into H).
  - reflexivity.
Defined.

(** ** ImagePipeline: [canvasToBlob] *)

Lemma resolve_all_first {A} (values : list A) :
  foldl (λ p v, resolve v p) Pending values
  = match values with
    | [] => Pending
    | v :: _ => Fulfilled v
    end.
Proof.
  destruct values as [|v values]; [done|]. cbn [foldl resolve].
  induction values as [|w values IH]; [done|]. exact IH.
Qed.

(** C8, as the spec states it, fails: on a canvas that is not
    origin-clean [toBlob] throws at the call, inside the executor of the
    promise, and the promise is rejected; and without [toBlob], when
    [toDataURL] throws, [canvasToBlob] throws and resolves with nothing. *)
Lemma canvasToBlob_tainted :
  let e := SecurityError "Tainted canvases may not be exported." in
  canvasToBlob standard_environment
    {| toBlob := Some (λ _ (_ : option Z), Throw e); toDataURL := λ _ _, Throw e |}
    (Some (js "image/png")) None
  = ([], Return (Rejected (thrown e)))
  ∧ canvasToBlob standard_environment
      {| toBlob := None; toDataURL := λ _ (_ : option Z), Throw e |}
      (Some (js "image/png")) None
    = ([], Throw e).
Proof. split; reflexivity. Qed.

(** C8, amended. A canvas with [toBlob]: the method is called with the
    given type and quality and with the promise's [resolve] as its
    callback; the promise is fulfilled with the value of the first call of
    the callback, is pending while there is none, and is rejected only
    when [toBlob] itself throws, with the error thrown.  A canvas
    without: the result is [dataURLToBlob] of
    [canvas.toDataURL(type, quality)] in a resolved promise, and what
    [toDataURL] or [dataURLToBlob] throws, [canvasToBlob] throws. *)
Theorem canvasToBlob_paths {Q : Type} (env : Environment)
    (serialize : option jsstring → option Q → outcome jsstring)
    (type : option jsstring) (quality : option Q) :
  (∀ primitive,
     canvasToBlob env {| toBlob := Some primitive; toDataURL := serialize |} type quality
     = ([], Return match primitive type quality with
                   | Return [] => Pending
                   | Return (blob :: _) => Fulfilled blob
                   | Throw e => Rejected (thrown e)
                   end))
  ∧ canvasToBlob env {| toBlob := None; toDataURL := serialize |} type quality
    = match serialize type quality with
      | Return dataURL =>
          ((dataURLToBlob env dataURL).1,
           match (dataURLToBlob env dataURL).2 with
           | Return blob => Return (Fulfilled (Some blob))
           | Throw e => Throw e
           end)
      | Throw e => ([], Throw e)
      end.
Proof.
  split.
  - intros primitive. unfold canvasToBlob, toBlob_promise. cbn [toBlob].
    destruct (primitive type quality) as [callbacks|e]; [|done].
    by rewrite resolve_all_first.
  - unfold canvasToBlob. cbn [toBlob toDataURL].
    destruct (serialize type quality) as [dataURL|e]; [|done].
    rewrite tbind_lift_return.
    destruct (dataURLToBlob env dataURL) as [log [blob|e]];
      unfold mbind, traced_bind, tbind, mret, traced_ret, tret; cbn [fst snd];
      by rewrite ?app_nil_r.
Qed.

(** A canvas without [toBlob]: the blob of the serialization. *)
Example canvasToBlob_fallback :
  canvasToBlob standard_environment
    {| toBlob := None;
       toDataURL := λ type (quality : option Z),
         Return (js "data:" ++ default (js "image/png") type ++ js ";base64,aGVsbG8=") |}
    (Some (js "image/jpeg")) (Some 1)
  = ([call_new_Blob [ArrayBufferPart ["h"; "e"; "l"; "l"; "o"]%byte]
        {| properties_type := Some (js "image/jpeg") |}],
     Return (Fulfilled (Some {| type := js "image/jpeg";
                                content := ["h"; "e"; "l"; "l"; "o"]%byte |}))).
Proof. vm_compute. reflexivity. Qed.

(** A canvas with [toBlob]: the first value passed to the callback. *)
Example canvasToBlob_direct :
  canvasToBlob bare_environment
    {| toBlob := Some (λ type (_ : option Z),
         Return [Some {| type := default [] type; content := ["h"; "i"]%byte |}; None]);
       toDataURL := λ _ _, Return (js "data:,") |}
    (Some (js "image/png")) None
  = ([], Return (Fulfilled (Some {| type := js "image/png"; content := ["h"; "i"]%byte |}))).
Proof. reflexivity. Qed.

(** * Further properties *)

(** ** ByteCodec on arbitrary strings *)

(** X1. Converting any string to bytes and back reduces every code unit
    modulo 256: the result is always a valid binary string, and
    converting it again gives the same bytes. *)
Theorem byte_codec_normalises (s : jsstring) :
  arrayBufferToBinaryString (binaryStringToArrayBuffer s) = map (λ c, c mod 256) s
  ∧ binary_string (arrayBufferToBinaryString (binaryStringToArrayBuffer s))
  ∧ binaryStringToArrayBuffer (arrayBufferToBinaryString (binaryStringToArrayBuffer s))
    = binaryStringToArrayBuffer s.
Proof.
  split; [|split].
  - rewrite arrayBufferToBinaryString_map, binaryStringToArrayBuffer_map, map_map.
    apply map_ext. intros c. apply byte_to_of_Z.
    pose proof (Z.mod_pos_bound c 256). lia.
  - apply arrayBufferToBinaryString_binary.
  - apply byte_codec_bytes_round_trip.
Qed.

(** X2. Two buffers with the same binary string are equal, and two
    strings give the same bytes exactly when their code units agree
    modulo 256, position by position. *)
Theorem byte_codec_collisions (b1 b2 : list byte) (s1 s2 : jsstring) :
  (arrayBufferToBinaryString b1 = arrayBufferToBinaryString b2 ↔ b1 = b2)
  ∧ (binaryStringToArrayBuffer s1 = binaryStringToArrayBuffer s2
     ↔ map (λ c, c mod 256) s1 = map (λ c, c mod 256) s2).
Proof.
  split; split.
  - intros H. rewrite <- (byte_codec_bytes_round_trip b1), H.
    apply byte_codec_bytes_round_trip.
  - by intros ->.
  - intros H.
    assert (Hn : ∀ s, map (λ c, c mod 256) s
                      = arrayBufferToBinaryString (binaryStringToArrayBuffer s)).
    { intros s. rewrite arrayBufferToBinaryString_map, binaryStringToArrayBuffer_map, map_map.
      apply map_ext. intros c. symmetry. apply byte_to_of_Z.
      pose proof (Z.mod_pos_bound c 256). lia. }
    by rewrite !Hn, H.
  - intros H. rewrite !binaryStringToArrayBuffer_map.
    assert (Hm : ∀ s, map (λ c, byte_of_Z (c mod 256)) s
                      = map byte_of_Z (map (λ c, c mod 256) s)).
    { intros s. by rewrite map_map. }
    by rewrite !Hm, H.
Qed.

(** X3. Both conversions work piece by piece: converting a concatenation
    is concatenating the conversions, so the empty input gives the empty
    output and a prefix of the input gives a prefix of the output. *)
Theorem byte_codec_concatenation (s1 s2 : jsstring) (b1 b2 : list byte) :
  binaryStringToArrayBuffer (s1 ++ s2)
  = binaryStringToArrayBuffer s1 ++ binaryStringToArrayBuffer s2
  ∧ arrayBufferToBinaryString (b1 ++ b2)
    = arrayBufferToBinaryString b1 ++ arrayBufferToBinaryString b2
  ∧ binaryStringToArrayBuffer [] = []
  ∧ arrayBufferToBinaryString [] = [].
Proof.
  rewrite !binaryStringToArrayBuffer_map, !arrayBufferToBinaryString_map.
  by rewrite !map_app.
Qed.

(** ** [createBlob]: which builder is used *)

Lemma legacy_createBlob_with env parts p (builder : string) class :
  (if typeof_defined (globals env) "BlobBuilder" then global_ref (globals env) "BlobBuilder"
   else if typeof_defined (globals env) "MSBlobBuilder"
        then global_ref (globals env) "MSBlobBuilder"
   else if typeof_defined (globals env) "MozBlobBuilder"
        then global_ref (globals env) "MozBlobBuilder"
   else global_ref (globals env) "WebKitBlobBuilder")
  = Return (builder, global_builder class) →
  legacy_createBlob env parts p
  = (call_new_Builder builder :: map call_append parts ++ [call_getBlob (properties_type p)],
     getBlob class parts (properties_type p)).
Proof.
  intros H. unfold legacy_createBlob. rewrite H.
  unfold mbind, traced_bind, tbind, tlift, construct, tcall. cbn [fst snd].
  rewrite append_loop_spec. cbn [app]. reflexivity.
Qed.

Lemma typeof_defined_builder (g : gmap string global_binding) (x : string) class :
  g !! x = Some (global_builder class) → typeof_defined g x = true.
Proof. intros H. unfold typeof_defined. by rewrite H. Qed.

Lemma global_ref_builder (g : gmap string global_binding) (x : string) class :
  g !! x = Some (global_builder class) → global_ref g x = Return (x, global_builder class).
Proof. intros H. unfold global_ref. by rewrite H. Qed.

(** X4. After a type error of the canonical constructor, the builder
    used is the first of [BlobBuilder], [MSBlobBuilder], [MozBlobBuilder],
    [WebKitBlobBuilder] that is defined: it is constructed once, every
    part is appended in order, and the blob is what its [getBlob] returns
    for the appended parts and the requested type. *)
Theorem createBlob_builder_priority (env : Environment)
    (parts : option (list blob_part)) (props : properties_arg) (e : js_error)
    (before after : list string) (builder : string) (class : BlobBuilderClass) :
  Blob_constructor env (default [] parts) (properties_of props) = Throw e →
  name e = "TypeError" →
  builder_names = before ++ builder :: after →
  Forall (λ x, typeof_defined (globals env) x = false) before →
  globals env !! builder = Some (global_builder class) →
  createBlob env parts props
  = (call_new_Blob (default [] parts) (properties_of props)
       :: call_new_Builder builder
       :: map call_append (default [] parts)
       ++ [call_getBlob (properties_type (properties_of props))],
     getBlob class (default [] parts) (properties_type (properties_of props))).
Proof.
  intros Hctor Hname Hnames Hbefore Hbuilder.
  rewrite (createBlob_fallback _ _ _ _ Hctor Hname).
  rewrite (legacy_createBlob_with env _ _ builder class); [done|].
  pose proof (typeof_defined_builder _ _ _ Hbuilder) as Hdef.
  pose proof (global_ref_builder _ _ _ Hbuilder) as Href.
  unfold builder_names in Hnames.
  destruct before as [|x1 [|x2 [|x3 [|x4 before]]]]; simplify_eq/=.
  - by rewrite Hdef.
  - inversion_clear Hbefore as [|? ? H1 _]. by rewrite H1, Hdef.
  - inversion_clear Hbefore as [|? ? H1 Hb]. inversion_clear Hb as [|? ? H2 _].
    by rewrite H1, H2, Hdef.
  - inversion_clear Hbefore as [|? ? H1 Hb]. inversion_clear Hb as [|? ? H2 Hb'].
    inversion_clear Hb' as [|? ? H3 _]. by rewrite H1, H2, H3.
  - by destruct before.
Qed.

Lemma createBlob_builder_priority_witness :
  createBlob
    {| Blob_constructor := λ _ _, Throw (TypeError "Illegal constructor");
       globals := {[ "MozBlobBuilder" := global_builder standard_builder ]} |}
    (Some [StringPart (js "a"); ArrayBufferPart ["b"]%byte]) (properties_string (js "text/plain"))
  = ([call_new_Blob [StringPart (js "a"); ArrayBufferPart ["b"]%byte]
        {| properties_type := Some (js "text/plain") |};
      call_new_Builder "MozBlobBuilder";
      call_append (StringPart (js "a"));
      call_append (ArrayBufferPart ["b"]%byte);
      call_getBlob (Some (js "text/plain"))],
     Return {| type := js "text/plain"; content := ["a"; "b"]%byte |}).
Proof.
  etrans.
  { apply (createBlob_builder_priority _ _ _ (TypeError "Illegal constructor")
             ["BlobBuilder"; "MSBlobBuilder"] ["WebKitBlobBuilder"] "MozBlobBuilder"
             standard_builder); try reflexivity.
    repeat constructor. }
  reflexivity.
Defined.

Lemma typeof_defined_true (g : gmap string global_binding) (x : string) :
  typeof_defined g x = true → ∃ class, g !! x = Some (global_builder class).
Proof.
  unfold typeof_defined. destruct (g !! x) as [[|class]|]; [done| |done].
  intros _. by exists class.
Qed.

Lemma typeof_defined_false_ref (g : gmap string global_binding) (x : string) p :
  typeof_defined g x = false →
  global_ref g x = Return p → p.2 = global_undefined.
Proof.
  unfold typeof_defined, global_ref.
  destruct (g !! x) as [[|class]|]; [|done..]. by intros _ [= <-].
Qed.

Lemma legacy_createBlob_returns env parts p blob :
  (legacy_createBlob env parts p).2 = Return blob →
  ∃ builder class,
    builder ∈ builder_names
    ∧ globals env !! builder = Some (global_builder class)
    ∧ getBlob class parts (properties_type p) = Return blob.
Proof.
  assert (Hsel : ∀ builder,
    builder ∈ builder_names →
    typeof_defined (globals env) builder = true →
    (if typeof_defined (globals env) "BlobBuilder"
     then global_ref (globals env) "BlobBuilder"
     else if typeof_defined (globals env) "MSBlobBuilder"
          then global_ref (globals env) "MSBlobBuilder"
     else if typeof_defined (globals env) "MozBlobBuilder"
          then global_ref (globals env) "MozBlobBuilder"
     else global_ref (globals env) "WebKitBlobBuilder")
    = global_ref (globals env) builder →
    (legacy_createBlob env parts p).2 = Return blob →
    ∃ builder class,
      builder ∈ builder_names
      ∧ globals env !! builder = Some (global_builder class)
      ∧ getBlob class parts (properties_type p) = Return blob).
  { intros builder Hin Hdef Hsel Hret.
    destruct (typeof_defined_true _ _ Hdef) as [class Hclass].
    rewrite (global_ref_builder _ _ _ Hclass) in Hsel.
    rewrite (legacy_createBlob_with _ _ _ _ _ Hsel) in Hret.
    by exists builder, class. }
  unfold builder_names in Hsel.
  destruct (typeof_defined (globals env) "BlobBuilder") eqn:H1.
  { apply (Hsel "BlobBuilder"); [set_solver|done|done]. }
  destruct (typeof_defined (globals env) "MSBlobBuilder") eqn:H2.
  { apply (Hsel "MSBlobBuilder"); [set_solver|done|done]. }
  destruct (typeof_defined (globals env) "MozBlobBuilder") eqn:H3.
  { apply (Hsel "MozBlobBuilder"); [set_solver|done|done]. }
  destruct (typeof_defined (globals env) "WebKitBlobBuilder") eqn:H4.
  { apply (Hsel "WebKitBlobBuilder"); [set_solver|done|done]. }
  clear Hsel. unfold legacy_createBlob. rewrite H1, H2, H3.
  unfold typeof_defined in H4. unfold global_ref.
  by destruct (globals env !! "WebKitBlobBuilder") as [[|class]|].
Qed.


(** X5. [createBlob] never makes a blob itself: a blob it returns was
    returned by the canonical constructor, or by [getBlob] of a builder
    that one of the four global names is bound to, called with exactly
    the given parts and type. *)
Theorem createBlob_returns_only (env : Environment)
    (parts : option (list blob_part)) (props : properties_arg) (blob : Blob) :
  (createBlob env parts props).2 = Return blob →
  Blob_constructor env (default [] parts) (properties_of props) = Return blob
  ∨ ∃ e builder class,
      Blob_constructor env (default [] parts) (properties_of props) = Throw e
      ∧ name e = "TypeError"
      ∧ builder ∈ builder_names
      ∧ globals env !! builder = Some (global_builder class)
      ∧ getBlob class (default [] parts) (properties_type (properties_of props))
        = Return blob.
Proof.
  destruct (Blob_constructor env (default [] parts) (properties_of props))
    as [blob'|e] eqn:Hctor.
  - rewrite (createBlob_returned _ _ _ _ Hctor). intros [= ->]. by left.
  - destruct (decide (name e = "TypeError")) as [Hname|Hname].
    + rewrite (createBlob_fallback _ _ _ _ Hctor Hname). cbn [snd].
      intros Hret. right.
      destruct (legacy_createBlob_returns _ _ _ _ Hret) as (builder & class & ? & ? & ?).
      by exists e, builder, class.
    + by rewrite (createBlob_rethrown _ _ _ _ Hctor Hname).
Qed.

Lemma createBlob_returns_only_witness :
  Blob_constructor standard_environment [ArrayBufferPart ["h"; "i"]%byte]
    {| properties_type := Some (js "text/plain") |}
  = Return {| type := js "text/plain"; content := ["h"; "i"]%byte |}
  ∨ ∃ e builder class,
      Blob_constructor standard_environment [ArrayBufferPart ["h"; "i"]%byte]
        {| properties_type := Some (js "text/plain") |} = Throw e
      ∧ name e = "TypeError"
      ∧ builder ∈ builder_names
      ∧ globals standard_environment !! builder = Some (global_builder class)
      ∧ getBlob class [ArrayBufferPart ["h"; "i"]%byte] (Some (js "text/plain"))
        = Return {| type := js "text/plain"; content := ["h"; "i"]%byte |}.
Proof.
  apply (createBlob_returns_only standard_environment
           (Some [ArrayBufferPart ["h"; "i"]%byte]) (properties_string (js "text/plain"))).
  reflexivity.
Defined.

(** ** Blobs from buffers, base64 and binary strings, and back *)

Lemma createBlob_standard (parts : option (list blob_part)) (props : properties_arg) :
  createBlob standard_environment parts props
  = ([call_new_Blob (default [] parts) (properties_of props)],
     Return {| type := normalize_type (default [] (properties_type (properties_of props)));
               content := concat (map part_bytes (default [] parts)) |}).
Proof. reflexivity. Qed.

Lemma properties_string_type (t : jsstring) :
  default [] (properties_type (properties_of (properties_string t))) = t.
Proof. by destruct t. Qed.

Lemma normalize_type_nil : normalize_type [] = [].
Proof. reflexivity. Qed.

Lemma blobToArrayBuffer_standard hasBinaryString fails blob :
  blobToArrayBuffer (standard_FileReader hasBinaryString fails) blob
  = match fails blob with
    | None => Fulfilled (content blob)
    | Some error => Rejected (error_event error)
    end.
Proof.
  unfold blobToArrayBuffer.
  etrans; [exact (fire_all_first_signal (default []) _)|].
  cbn [readAsArrayBuffer standard_FileReader].
  rewrite first_signal_standard_read. by destruct (fails blob).
Qed.

(** X6. On a standard host [arrayBufferToBlob] and [blobToArrayBuffer]
    are inverse: the blob of a buffer has exactly those bytes (and the
    given type, normalised; the empty string gives the empty type), and
    reading it returns the buffer; a blob that is read and rebuilt with
    its own type is the same blob. *)
Theorem arrayBuffer_blob_round_trip (hasBinaryString : bool)
    (fails : Blob → option js_error) (buffer : list byte) (t : jsstring) (o : Blob) :
  fails {| type := normalize_type t; content := buffer |} = None →
  fails o = None →
  normalize_type (type o) = type o →
  (arrayBufferToBlob standard_environment buffer (properties_string t)).2
  = Return {| type := normalize_type t; content := buffer |}
  ∧ blobToArrayBuffer (standard_FileReader hasBinaryString fails)
      {| type := normalize_type t; content := buffer |}
    = Fulfilled buffer
  ∧ then_ (blobToArrayBuffer (standard_FileReader hasBinaryString fails) o)
      (λ buffer, (arrayBufferToBlob standard_environment buffer
                    (properties_string (type o))).2)
    = Fulfilled o.
Proof.
  intros Hok1 Hok2 Hnorm.
  assert (Hmake : ∀ buffer t,
    (arrayBufferToBlob standard_environment buffer (properties_string t)).2
    = Return {| type := normalize_type t; content := buffer |}).
  { intros b t'. unfold arrayBufferToBlob. rewrite createBlob_standard. cbn [snd].
    rewrite properties_string_type. cbn [default map part_bytes concat id].
    by rewrite app_nil_r. }
  split; [apply Hmake|]. split.
  - by rewrite blobToArrayBuffer_standard, Hok1.
  - rewrite blobToArrayBuffer_standard, Hok2. cbn [then_].
    rewrite Hmake, Hnorm. by destruct o.
Qed.

Lemma arrayBuffer_blob_round_trip_witness :
  then_ (blobToArrayBuffer (standard_FileReader true (λ _, None))
           {| type := js "image/png"; content := [x89; "P"; "N"; "G"]%byte |})
    (λ buffer, (arrayBufferToBlob standard_environment buffer
                  (properties_string (js "image/png"))).2)
  = Fulfilled {| type := js "image/png"; content := [x89; "P"; "N"; "G"]%byte |}.
Proof.
  exact (proj2 (proj2 (arrayBuffer_blob_round_trip true (λ _, None) [] []
                  {| type := js "image/png"; content := [x89; "P"; "N"; "G"]%byte |}
                  eq_refl eq_refl eq_refl))).
Defined.

Lemma base64StringToBlob_standard (bytes : list byte) (t : option jsstring) :
  (base64StringToBlob standard_environment (base64_encode bytes) t).2
  = Return {| type := normalize_type (default [] t); content := bytes |}.
Proof.
  unfold base64StringToBlob. rewrite atob_base64_encode, tbind_lift_return.
  rewrite <- arrayBufferToBinaryString_map, byte_codec_bytes_round_trip.
  destruct t as [[|c t]|]; rewrite createBlob_standard; cbn; by rewrite app_nil_r.
Qed.

(** X7. The base64 round trip holds for every blob of a standard host,
    whatever its type: [blobToBase64String], then [base64StringToBlob]
    with the blob's type, gives the same type and bytes; this includes
    the empty type and types with [;] or [,]. *)
Theorem base64_round_trip (hasBinaryString : bool)
    (fails : Blob → option js_error) (o : Blob) :
  fails o = None →
  normalize_type (type o) = type o →
  then_ (blobToBase64String (standard_FileReader hasBinaryString fails) o)
    (λ base64, (base64StringToBlob standard_environment base64 (Some (type o))).2)
  = Fulfilled o.
Proof.
  intros Hok Hnorm. rewrite blobToBase64String_standard by done. cbn [then_].
  rewrite base64StringToBlob_standard. cbn [default id]. rewrite Hnorm. by destruct o.
Qed.

Lemma base64_round_trip_witness :
  then_ (blobToBase64String (standard_FileReader false (λ _, None))
           {| type := js "text/plain;charset=utf-8"; content := ["h"; "i"]%byte |})
    (λ base64, (base64StringToBlob standard_environment base64
                  (Some (js "text/plain;charset=utf-8"))).2)
  = Fulfilled {| type := js "text/plain;charset=utf-8"; content := ["h"; "i"]%byte |}.
Proof.
  exact (base64_round_trip false (λ _, None)
           {| type := js "text/plain;charset=utf-8"; content := ["h"; "i"]%byte |}
           eq_refl eq_refl).
Defined.

Lemma btoa_binary (s : jsstring) :
  binary_string s → btoa s = Return (base64_encode (binaryStringToArrayBuffer s)).
Proof.
  intros Hs. unfold btoa.
  assert (forallb (λ c, (0 <=? c) && (c <=? 255)) s = true) as ->.
  { apply forallb_forall. intros c Hc. apply list_elem_of_In in Hc.
    unfold binary_string in Hs. rewrite Forall_forall in Hs.
    specialize (Hs c Hc). unfold binary_char in Hs.
    apply andb_true_iff. lia. }
  do 2 f_equal. rewrite binaryStringToArrayBuffer_map.
  induction Hs as [|c s Hc _ IH]; [done|]. cbn [map]. rewrite IH. f_equal.
  unfold binary_char in Hc. by rewrite Z.mod_small by lia.
Qed.

Lemma btoa_not_binary (s : jsstring) (c : Z) :
  c ∈ s → ¬ binary_char c →
  btoa s = Throw (InvalidCharacterError "The string to be encoded contains characters outside of the Latin1 range.").
Proof.
  intros Hc Hbad. unfold btoa.
  destruct (forallb (λ c, (0 <=? c) && (c <=? 255)) s) eqn:E; [|done].
  exfalso. apply Hbad. rewrite forallb_forall in E.
  apply list_elem_of_In in Hc. specialize (E c Hc). apply andb_true_iff in E.
  unfold binary_char. lia.
Qed.

(** X8. For a valid binary string, [binaryStringToBlob] on a standard
    host makes the blob of its bytes with the given type, and
    [blobToBinaryString] of that blob resolves with the string again. *)
Theorem binaryString_blob_round_trip (hasBinaryString : bool)
    (fails : Blob → option js_error) (s : jsstring) (t : option jsstring) :
  binary_string s →
  fails {| type := normalize_type (default [] t);
           content := binaryStringToArrayBuffer s |} = None →
  (binaryStringToBlob standard_environment s t).2
  = Return {| type := normalize_type (default [] t);
              content := binaryStringToArrayBuffer s |}
  ∧ blobToBinaryString (standard_FileReader hasBinaryString fails)
      {| type := normalize_type (default [] t); content := binaryStringToArrayBuffer s |}
    = Fulfilled s.
Proof.
  intros Hs Hok. split.
  - unfold binaryStringToBlob. rewrite btoa_binary, tbind_lift_return by done.
    apply base64StringToBlob_standard.
  - rewrite blobToBinaryString_standard, Hok. cbn [content].
    by rewrite <- arrayBufferToBinaryString_map, byte_codec_string_round_trip.
Qed.

Lemma binaryString_blob_round_trip_witness :
  (binaryStringToBlob standard_environment [0; 97; 255] (Some (js "text/plain"))).2
  = Return {| type := js "text/plain"; content := [x00; "a"; xff]%byte |}
  ∧ blobToBinaryString (standard_FileReader false (λ _, None))
      {| type := js "text/plain"; content := [x00; "a"; xff]%byte |}
    = Fulfilled [0; 97; 255].
Proof.
  apply (binaryString_blob_round_trip false (λ _, None) [0; 97; 255] (Some (js "text/plain")));
    [|reflexivity].
  repeat (constructor; [unfold binary_char; lia|]). constructor.
Defined.

(** X9. [binaryStringToBlob] does not truncate as
    [binaryStringToArrayBuffer] does: a string with a code unit outside
    0..255 makes [btoa] throw an [InvalidCharacterError], in every
    environment and before any call to the host. *)
Theorem binaryStringToBlob_rejects (env : Environment) (s : jsstring)
    (t : option jsstring) (c : Z) :
  c ∈ s → ¬ binary_char c →
  binaryStringToBlob env s t
  = ([], Throw (InvalidCharacterError "The string to be encoded contains characters outside of the Latin1 range.")).
Proof.
  intros Hc Hbad. unfold binaryStringToBlob.
  by rewrite (btoa_not_binary s c Hc Hbad).
Qed.

Lemma binaryStringToBlob_rejects_witness :
  binaryStringToBlob standard_environment [97; 8364] None
  = ([], Throw (InvalidCharacterError "The string to be encoded contains characters outside of the Latin1 range.")).
Proof.
  apply (binaryStringToBlob_rejects standard_environment [97; 8364] None 8364).
  - apply list_elem_of_further, list_elem_of_here.
  - unfold binary_char. lia.
Defined.

(** ** Malformed input *)

(** Decides [x ∉ l] and [x ∈ l] for a list of numerals. *)
Ltac concrete_elem :=
  try lazymatch goal with |- ?x ∈ ?l → False => change (x ∉ l) end;
  lazymatch goal with
  | |- ?x ∉ ?l =>
      let x' := eval vm_compute in x in
      let l' := eval vm_compute in l in
      let H := fresh in
      change (x' ∉ l'); intros H;
      repeat (apply elem_of_cons in H as [H|H]; [discriminate H|]);
      by apply elem_of_nil in H
  | |- ?x ∈ ?l =>
      let x' := eval vm_compute in x in
      let l' := eval vm_compute in l in
      change (x' ∈ l');
      repeat first [by apply list_elem_of_here | apply list_elem_of_further]
  end.

Lemma remove_padding_keeps (data : jsstring) (c : Z) :
  c ∈ data → c ≠ equals_sign → c ∈ remove_padding data.
Proof.
  intros Hc Hne. unfold remove_padding.
  destruct (Z.of_nat (length data) mod 4 =? 0); [|done].
  destruct (reverse data) as [|c1 r1] eqn:E; [done|].
  apply elem_of_reverse in Hc. rewrite E in Hc.
  destruct (Z.eqb_spec c1 equals_sign) as [->|_].
  - apply elem_of_cons in Hc as [->|Hc]; [done|].
    destruct r1 as [|c2 r2]; [by apply elem_of_reverse|].
    destruct (Z.eqb_spec c2 equals_sign) as [->|_]; [|by apply elem_of_reverse].
    apply elem_of_cons in Hc as [->|Hc]; [done|]. by apply elem_of_reverse.
  - apply elem_of_reverse. by rewrite E.
Qed.

Lemma atob_illegal (data : jsstring) (c : Z) :
  c ∈ data → base64_value c = None → ascii_whitespace c = false → c ≠ equals_sign →
  atob data = Throw (InvalidCharacterError "The string to be decoded is not correctly encoded.").
Proof.
  intros Hc Hval Hws Hne. unfold atob.
  assert (forgiving_base64_decode data = None) as ->; [|done].
  unfold forgiving_base64_decode.
  set (stripped := remove_padding (filter (λ c, ascii_whitespace c = false) data)).
  assert (Hin : c ∈ stripped).
  { apply remove_padding_keeps; [|done]. by apply list_elem_of_filter. }
  destruct (Z.of_nat (length stripped) mod 4 =? 1); [done|].
  destruct (mapM base64_value stripped) as [sextets|] eqn:E; [|done].
  exfalso. assert (Hsome : is_Some (mapM base64_value stripped)) by (by rewrite E).
  apply mapM_is_Some in Hsome. rewrite Forall_forall in Hsome.
  specialize (Hsome c Hin). cbn in Hsome. rewrite Hval in Hsome.
  by destruct Hsome.
Qed.

(** X10. A character that is neither in the base64 alphabet, nor ASCII
    whitespace, nor [=] anywhere in the base64 text makes
    [base64StringToBlob] throw an [InvalidCharacterError]; the same in
    the payload of a data URL makes [dataURLToBlob] throw it.  No blob is
    made and the host's blob constructor is not called. *)
Theorem base64_illegal_character (env : Environment) (base64 : jsstring)
    (t : jsstring) (type : option jsstring) (c : Z) :
  c ∈ base64 → base64_value c = None → ascii_whitespace c = false → c ≠ equals_sign →
  t ≠ [] → semicolon ∉ t → comma ∉ t →
  base64StringToBlob env base64 type
  = ([], Throw (InvalidCharacterError "The string to be decoded is not correctly encoded."))
  ∧ dataURLToBlob env (js "data:" ++ t ++ js ";base64," ++ base64)
    = ([], Throw (InvalidCharacterError "The string to be decoded is not correctly encoded.")).
Proof.
  intros Hc Hval Hws Hne Ht Hsemi Hcomma. split.
  - unfold base64StringToBlob. by rewrite (atob_illegal base64 c).
  - unfold dataURLToBlob.
    rewrite match_data_url, tbind_lift_return, replace_to_comma_url by done.
    by rewrite (atob_illegal base64 c).
Qed.

Lemma base64_illegal_character_witness :
  base64StringToBlob standard_environment (js "aGk*") (Some (js "text/plain"))
  = ([], Throw (InvalidCharacterError "The string to be decoded is not correctly encoded."))
  ∧ dataURLToBlob standard_environment (js "data:text/plain;base64,aGk*")
    = ([], Throw (InvalidCharacterError "The string to be decoded is not correctly encoded.")).
Proof.
  apply (base64_illegal_character standard_environment (js "aGk*") (js "text/plain")
           (Some (js "text/plain")) 42).
  - concrete_elem.
  - reflexivity.
  - reflexivity.
  - unfold equals_sign. lia.
  - discriminate.
  - concrete_elem.
  - concrete_elem.
Defined.

Lemma comma_not_in_data : comma ∉ js "data:".
Proof. concrete_elem. Qed.

Lemma strip_prefix_Some (prefix s rest : jsstring) :
  strip_prefix prefix s = Some rest → s = prefix ++ rest.
Proof.
  revert s. induction prefix as [|p prefix IH]; intros s H.
  - destruct s; by injection H as <-.
  - destruct s as [|c s]; [done|]. cbn [strip_prefix] in H.
    destruct (Z.eqb_spec p c) as [->|_]; [|done].
    cbn [app]. f_equal. by apply IH.
Qed.

Lemma match_data_no_colon (s : jsstring) : 58 ∉ s → match_data s = None.
Proof.
  intros Hs.
  assert (Hhere : ∀ s', 58 ∉ s' → match_data_here s' = None).
  { intros s' Hs'. unfold match_data_here.
    destruct (strip_prefix (js "data:") s') as [rest|] eqn:E; [|done].
    apply strip_prefix_Some in E. subst s'. exfalso. apply Hs'.
    apply elem_of_app. left. concrete_elem. }
  induction s as [|c s IH].
  - cbn [match_data]. by rewrite Hhere.
  - cbn [match_data]. rewrite (Hhere _ Hs). apply IH.
    intros Hin. apply Hs. by apply elem_of_cons; right.
Qed.

(** X11. A string without a colon, the empty string included, is no
    data URL: [dataURLToBlob] throws the [TypeError] of reading [[1]] on
    the [null] that [match] returned, before decoding anything and
    before any call to the host. *)
Theorem dataURLToBlob_no_colon (env : Environment) (dataURL : jsstring) :
  58 ∉ dataURL →
  dataURLToBlob env dataURL
  = ([], Throw (TypeError "Cannot read properties of null (reading '1')")).
Proof.
  intros H. unfold dataURLToBlob. by rewrite (match_data_no_colon _ H).
Qed.

Lemma dataURLToBlob_no_colon_witness :
  dataURLToBlob standard_environment (js "aGVsbG8=")
  = ([], Throw (TypeError "Cannot read properties of null (reading '1')")).
Proof.
  apply (dataURLToBlob_no_colon standard_environment (js "aGVsbG8=")).
  concrete_elem.
Defined.

(** ** What [dataURLToBlob] reads from a URL *)

Lemma match_data_prefix (t rest : jsstring) :
  t ≠ [] → semicolon ∉ t →
  match_data (js "data:" ++ t ++ semicolon :: rest) = Some t.
Proof.
  intros Hne Hsemi. apply match_data_at_start. unfold match_data_here.
  rewrite strip_prefix_app.
  rewrite take_while_stop; [by destruct t|by apply not_elem_of_Forall_neq|done].
Qed.

Lemma replace_to_comma_first (before rest : jsstring) :
  before ≠ [] → comma ∉ before →
  replace_to_comma (before ++ comma :: rest) = rest.
Proof.
  intros Hne Hcomma. unfold replace_to_comma.
  rewrite take_while_stop, drop_while_stop
    by (by apply not_elem_of_Forall_neq || done).
  by destruct before.
Qed.

Lemma dataURLToBlob_type_and_payload (env : Environment)
    (t parameters : jsstring) (bytes : list byte) :
  t ≠ [] → semicolon ∉ t → comma ∉ t → comma ∉ parameters →
  dataURLToBlob env
    (js "data:" ++ t ++ [semicolon] ++ parameters ++ [comma] ++ base64_encode bytes)
  = createBlob env (Some [ArrayBufferPart bytes])
      (properties_object {| properties_type := Some t |}).
Proof.
  intros Hne Hsemi Hcomma Hparams. unfold dataURLToBlob.
  cbn [app]. rewrite match_data_prefix, tbind_lift_return by done.
  assert (js "data:" ++ t ++ semicolon :: parameters ++ comma :: base64_encode bytes
          = (js "data:" ++ t ++ semicolon :: parameters) ++ comma :: base64_encode bytes)
    as ->.
  { by rewrite <- !app_assoc. }
  rewrite replace_to_comma_first.
  - rewrite atob_base64_encode, tbind_lift_return.
    by rewrite <- arrayBufferToBinaryString_map, byte_codec_bytes_round_trip.
  - done.
  - intros H. apply elem_of_app in H as [H|H]; [by apply comma_not_in_data|].
    apply elem_of_app in H as [H|H]; [done|].
    apply elem_of_cons in H as [H|H]; [discriminate H|done].
Qed.

(** X12. [dataURLToBlob] takes the type up to the first [;] and the
    payload after the first [,], and nothing in between is looked at:
    parameters of the media type are dropped, and the payload is decoded
    as base64 whether or not the URL says [;base64]. *)
Theorem dataURLToBlob_ignores_parameters (env : Environment)
    (t parameters : jsstring) (bytes : list byte) :
  t ≠ [] → semicolon ∉ t → comma ∉ t → comma ∉ parameters →
  dataURLToBlob env
    (js "data:" ++ t ++ [semicolon] ++ parameters ++ [comma] ++ base64_encode bytes)
  = createBlob env (Some [ArrayBufferPart bytes])
      (properties_object {| properties_type := Some t |}).
Proof. apply dataURLToBlob_type_and_payload. Qed.

Lemma dataURLToBlob_ignores_parameters_witness :
  dataURLToBlob standard_environment (js "data:text/plain;charset=utf-8,aGk=")
  = createBlob standard_environment (Some [ArrayBufferPart ["h"; "i"]%byte])
      (properties_object {| properties_type := Some (js "text/plain") |}).
Proof.
  apply (dataURLToBlob_ignores_parameters standard_environment
           (js "text/plain") (js "charset=utf-8") ["h"; "i"]%byte);
    [discriminate|concrete_elem..].
Defined.

Lemma take_while_all (p : Z → bool) (s : jsstring) :
  Forall (λ c, p c = true) s → take_while p s = s.
Proof. induction 1 as [|c s Hc _ IH]; [done|]. cbn [take_while]. by rewrite Hc, IH. Qed.

Lemma base64_encode_no_semicolon (bytes : list byte) : semicolon ∉ base64_encode bytes.
Proof.
  destruct (base64_encode_shape bytes) as (sextets & pad & -> & Hsx & _ & Hpad).
  intros H. apply elem_of_app in H as [H|H].
  - rewrite map_fmap in H. apply list_elem_of_fmap in H as (n & Hn & Hin).
    rewrite Forall_forall in Hsx. specialize (Hsx n Hin).
    pose proof Hsx as Hsx'. unfold sextet in Hsx'. unfold semicolon in Hn.
    destruct (base64_char_cases n Hsx) as [[? E]|[[? E]|[[? E]|[[? E]|[? E]]]]]; lia.
  - destruct Hpad as [[-> _]|[[-> _]|[-> _]]]; revert H; concrete_elem.
Qed.

(** X13. A URL without any [;] has no end of the type: the type
    [dataURLToBlob] asks for is everything after ["data:"], the comma
    and the payload included, while the payload is still decoded. *)
Theorem dataURLToBlob_without_semicolon (env : Environment)
    (t : jsstring) (bytes : list byte) :
  semicolon ∉ t → comma ∉ t →
  dataURLToBlob env (js "data:" ++ t ++ [comma] ++ base64_encode bytes)
  = createBlob env (Some [ArrayBufferPart bytes])
      (properties_object
         {| properties_type := Some (t ++ [comma] ++ base64_encode bytes) |}).
Proof.
  intros Hsemi Hcomma. unfold dataURLToBlob.
  assert (match_data (js "data:" ++ t ++ [comma] ++ base64_encode bytes)
          = Some (t ++ [comma] ++ base64_encode bytes)) as ->.
  { apply match_data_at_start. unfold match_data_here. rewrite strip_prefix_app.
    rewrite take_while_all; [by destruct t|].
    apply not_elem_of_Forall_neq. intros H.
    apply elem_of_app in H as [H|H]; [done|].
    apply elem_of_app in H as [H|H]; [revert H; concrete_elem|].
    by apply base64_encode_no_semicolon in H. }
  rewrite tbind_lift_return.
  assert (js "data:" ++ t ++ [comma] ++ base64_encode bytes
          = (js "data:" ++ t) ++ comma :: base64_encode bytes) as ->.
  { by rewrite <- !app_assoc. }
  rewrite replace_to_comma_first.
  - rewrite atob_base64_encode, tbind_lift_return.
    by rewrite <- arrayBufferToBinaryString_map, byte_codec_bytes_round_trip.
  - done.
  - intros H. apply elem_of_app in H as [H|H]; [by apply comma_not_in_data|done].
Qed.

Lemma dataURLToBlob_without_semicolon_witness :
  dataURLToBlob standard_environment (js "data:text/plain,aGk=")
  = createBlob standard_environment (Some [ArrayBufferPart ["h"; "i"]%byte])
      (properties_object {| properties_type := Some (js "text/plain,aGk=") |}).
Proof.
  apply (dataURLToBlob_without_semicolon standard_environment
           (js "text/plain") ["h"; "i"]%byte); concrete_elem.
Defined.

(** ** A read that fails *)

(** X14. When the read of a blob fails, every reading function rejects
    with the reader's error event, with either read capability:
    [blobToBinaryString], [blobToArrayBuffer], [blobToBase64String] and
    [blobToDataURL]; no [then] callback runs, so nothing is encoded and
    no blob is rebuilt. *)
Theorem read_failure_propagates (hasBinaryString : bool)
    (fails : Blob → option js_error) (env : Environment) (blob : Blob) (e : js_error) :
  fails blob = Some e →
  blobToBinaryString (standard_FileReader hasBinaryString fails) blob
  = Rejected (error_event e)
  ∧ blobToArrayBuffer (standard_FileReader hasBinaryString fails) blob
    = Rejected (error_event e)
  ∧ blobToBase64String (standard_FileReader hasBinaryString fails) blob
    = Rejected (error_event e)
  ∧ blobToDataURL (standard_FileReader hasBinaryString fails) blob
    = Rejected (error_event e)
  ∧ data_url_round_trip (standard_FileReader hasBinaryString fails) env blob
    = Rejected (error_event e).
Proof.
  intros Hfail.
  assert (H1 : blobToBinaryString (standard_FileReader hasBinaryString fails) blob
               = Rejected (error_event e)).
  { by rewrite blobToBinaryString_standard, Hfail. }
  split; [exact H1|].
  split; [by rewrite blobToArrayBuffer_standard, Hfail|].
  unfold data_url_round_trip, blobToDataURL, blobToBase64String. by rewrite H1.
Qed.

Lemma read_failure_propagates_witness :
  blobToDataURL
    (standard_FileReader true (λ _, Some {| name := "NotReadableError"; message := "" |}))
    {| type := js "text/plain"; content := ["h"; "i"]%byte |}
  = Rejected (error_event {| name := "NotReadableError"; message := "" |}).
Proof.
  exact (proj1 (proj2 (proj2 (proj2
    (read_failure_propagates true
       (λ _, Some {| name := "NotReadableError"; message := "" |})
       standard_environment
       {| type := js "text/plain"; content := ["h"; "i"]%byte |}
       {| name := "NotReadableError"; message := "" |} eq_refl))))).
Defined.

(** ** ObjectURLRegistry *)

Lemma URL_or_webkitURL_URL g member o :
  g !! "URL" = Some (url_object o) → URL_or_webkitURL g member = Return o.
Proof.
  intros H. unfold URL_or_webkitURL, url_typeof_defined, url_ref. by rewrite H.
Qed.

Lemma URL_or_webkitURL_webkitURL g member o :
  url_typeof_defined g "URL" = false →
  g !! "webkitURL" = Some (url_object o) → URL_or_webkitURL g member = Return o.
Proof.
  intros H1 H2. unfold URL_or_webkitURL. rewrite H1. unfold url_ref. by rewrite H2.
Qed.

(** X15. [createObjectURL] and [revokeObjectURL] call the method of the
    global [URL] when it is defined, whatever [webkitURL] is; they call
    [webkitURL]'s only when [URL] is not; and when neither name is
    declared both throw the reference error of the name [webkitURL] and
    leave the host's table as it is. *)
Theorem object_url_selection (g : gmap string url_binding) (blob : Blob)
    (url : jsstring) (store : url_store) :
  (∀ o, g !! "URL" = Some (url_object o) →
        createObjectURL g blob store
        = (Return (URL_createObjectURL o blob store).1, (URL_createObjectURL o blob store).2)
        ∧ revokeObjectURL g url store = (Return (), URL_revokeObjectURL o url store))
  ∧ (∀ o, url_typeof_defined g "URL" = false →
          g !! "webkitURL" = Some (url_object o) →
          createObjectURL g blob store
          = (Return (URL_createObjectURL o blob store).1,
             (URL_createObjectURL o blob store).2)
          ∧ revokeObjectURL g url store = (Return (), URL_revokeObjectURL o url store))
  ∧ (url_typeof_defined g "URL" = false → g !! "webkitURL" = None →
     createObjectURL g blob store
     = (Throw (ReferenceError "webkitURL is not defined"), store)
     ∧ revokeObjectURL g url store
       = (Throw (ReferenceError "webkitURL is not defined"), store)).
Proof.
  split; [|split].
  - intros o H. unfold createObjectURL, revokeObjectURL.
    rewrite !(URL_or_webkitURL_URL g _ o H).
    by destruct (URL_createObjectURL o blob store).
  - intros o H1 H2. unfold createObjectURL, revokeObjectURL.
    rewrite !(URL_or_webkitURL_webkitURL g _ o H1 H2).
    by destruct (URL_createObjectURL o blob store).
  - intros H1 H2. unfold createObjectURL, revokeObjectURL, URL_or_webkitURL.
    rewrite H1. unfold url_ref. by rewrite H2.
Qed.

Lemma object_url_selection_witness :
  createObjectURL ∅ {| type := []; content := [] |} {| issued := 0; entries := ∅ |}
  = (Throw (ReferenceError "webkitURL is not defined"), {| issued := 0; entries := ∅ |}).
Proof.
  destruct (object_url_selection ∅ {| type := []; content := [] |} []
              {| issued := 0; entries := ∅ |}) as (_ & _ & H).
  apply H; reflexivity.
Defined.

(** X16. With a host table after the File API behind [URL], or behind
    [webkitURL] when [URL] is not defined: the URL that
    [createObjectURL] returns resolves to the blob; after
    [revokeObjectURL] of it, it resolves to nothing, and every other URL
    resolves as it did before the two calls. *)
Theorem object_url_round_trip (g : gmap string url_binding) (handle : nat → jsstring)
    (blob : Blob) (store : url_store) :
  g !! "URL" = Some (url_object (standard_URL handle))
  ∨ (url_typeof_defined g "URL" = false
     ∧ g !! "webkitURL" = Some (url_object (standard_URL handle))) →
  let url := handle (issued store) in
  let created := createObjectURL g blob store in
  let revoked := revokeObjectURL g url created.2 in
  created.1 = Return url
  ∧ resolve_url created.2 url = Some blob
  ∧ revoked.1 = Return ()
  ∧ resolve_url revoked.2 url = None
  ∧ ∀ other, other ≠ url → resolve_url revoked.2 other = resolve_url store other.
Proof.
  intros Hg url created revoked.
  assert (Hsel : ∀ member, URL_or_webkitURL g member = Return (standard_URL handle)).
  { intros member. destruct Hg as [H|[H1 H2]].
    - by apply URL_or_webkitURL_URL.
    - by apply URL_or_webkitURL_webkitURL. }
  subst created revoked. unfold createObjectURL, revokeObjectURL.
  rewrite !Hsel. cbn [standard_URL URL_createObjectURL URL_revokeObjectURL fst snd].
  unfold resolve_url. cbn [entries issued]. fold url.
  split; [done|]. split; [apply lookup_insert_eq|]. split; [done|].
  split; [apply lookup_delete_eq|].
  intros other Hother. by rewrite lookup_delete_ne, lookup_insert_ne.
Qed.

Lemma object_url_round_trip_witness :
  let g : gmap string url_binding :=
    {[ "webkitURL" := url_object (standard_URL (λ n, js "blob:" ++ [48 + Z.of_nat n])) ]} in
  let store := {| issued := 3; entries := ∅ |} in
  let blob := {| type := js "text/plain"; content := ["h"; "i"]%byte |} in
  (createObjectURL g blob store).1 = Return (js "blob:3")
  ∧ resolve_url (createObjectURL g blob store).2 (js "blob:3") = Some blob
  ∧ resolve_url (revokeObjectURL g (js "blob:3") (createObjectURL g blob store).2).2
      (js "blob:3") = None.
Proof.
  intros g store blob.
  destruct (object_url_round_trip g (λ n, js "blob:" ++ [48 + Z.of_nat n]) blob store)
    as (H1 & H2 & _ & H4 & _).
  { right. split; reflexivity. }
  split; [exact H1|]. split; [exact H2|exact H4].
Defined.

(** ** ImagePipeline: from an image source to a data URL or a blob *)

Lemma loadImage_settled (src : jsstring) (attribute : option jsstring)
    (evs : list image_event) (p : promise Image) :
  p ≠ Pending →
  foldl (λ p ev,
           match ev with
           | image_load width height =>
               resolve {| src := src; crossOrigin := attribute;
                          width := width; height := height |} p
           | image_error error => reject (error_event error) p
           end) p evs = p.
Proof.
  revert p. induction evs as [|ev evs IH]; intros p Hp; [done|].
  cbn [foldl]. destruct ev, p; try done; by apply IH.
Qed.

(** The first event of the load decides. *)
Lemma loadImage_first decode (src : jsstring) (crossOrigin : option jsstring) ev evs :
  decode src (crossOrigin_attribute crossOrigin) = ev :: evs →
  loadImage decode src crossOrigin
  = match ev with
    | image_load width height =>
        Fulfilled {| src := src; crossOrigin := crossOrigin_attribute crossOrigin;
                     width := width; height := height |}
    | image_error error => Rejected (error_event error)
    end.
Proof.
  intros H. unfold loadImage. rewrite H. cbn [foldl].
  destruct ev; cbn [resolve reject]; by apply loadImage_settled.
Qed.

(** X17. When the host's first answer to the load is an error, both
    [imgSrcToDataURL] and [imgSrcToBlob] reject with that error event,
    whatever the type and quality and whatever the host fires later; no
    canvas is serialised. *)
Theorem image_load_failure {Q : Type} (host : ImageHost Q) (env : Environment)
    (src : jsstring) (type crossOrigin : option jsstring) (quality : option Q)
    (error : js_error) (later : list image_event) :
  decode host src (crossOrigin_attribute crossOrigin) = image_error error :: later →
  imgSrcToDataURL host src type crossOrigin quality = Rejected (error_event error)
  ∧ imgSrcToBlob host env src type crossOrigin quality = Rejected (error_event error).
Proof.
  intros H. unfold imgSrcToDataURL, imgSrcToBlob.
  by rewrite (loadImage_first _ _ _ _ _ H).
Qed.

Lemma image_load_failure_witness :
  let host : ImageHost Z :=
    {| decode := λ _ _, [image_error {| name := "Error"; message := "404" |};
                          image_load 2 2];
       canvas_methods := λ _,
         {| toBlob := None; toDataURL := λ _ _, Return (js "data:,") |} |} in
  imgSrcToBlob host standard_environment (js "missing.png") None None None
  = Rejected (error_event {| name := "Error"; message := "404" |}).
Proof.
  intros host.
  exact (proj2 (image_load_failure host standard_environment (js "missing.png")
                  None None None {| name := "Error"; message := "404" |}
                  [image_load 2 2] eq_refl)).
Defined.

(** X18. When the image loads with a given width and height, the
    canvas has that size and holds one drawing of the whole image at the
    origin, and what its methods do decides: [imgSrcToDataURL] resolves
    with what [toDataURL] returns and rejects with what it throws (a
    tainted canvas); [imgSrcToBlob] follows the promise of
    [canvasToBlob], and rejects when [toBlob] throws or, without
    [toBlob], when [toDataURL] throws.  The type is ["image/png"] when
    left out or empty, and an empty [crossOrigin] is not set on the
    image. *)
Theorem image_loaded {Q : Type} (host : ImageHost Q) (env : Environment)
    (src : jsstring) (type crossOrigin : option jsstring) (quality : option Q)
    (w h : Z) (later : list image_event) :
  decode host src (crossOrigin_attribute crossOrigin) = image_load w h :: later →
  let img := {| src := src; crossOrigin := crossOrigin_attribute crossOrigin;
                width := w; height := h |} in
  let canvas := {| canvas_width := w; canvas_height := h;
                   drawn := [ {| image := img;
                                 sx := 0; sy := 0; sWidth := w; sHeight := h;
                                 dx := 0; dy := 0; dWidth := w; dHeight := h |} ] |} in
  let type' := match type with
               | Some (c :: t) => c :: t
               | Some [] | None => js "image/png"
               end in
  let methods := canvas_methods host canvas in
  imgSrcToDataURL host src type crossOrigin quality
  = match toDataURL methods (Some type') quality with
    | Return dataURL => Fulfilled dataURL
    | Throw e => Rejected (thrown e)
    end
  ∧ imgSrcToBlob host env src type crossOrigin quality
    = match (canvasToBlob env methods (Some type') quality).2 with
      | Return p => p
      | Throw e => Rejected (thrown e)
      end
  ∧ (∀ primitive e,
       toBlob methods = Some primitive → primitive (Some type') quality = Throw e →
       imgSrcToBlob host env src type crossOrigin quality = Rejected (thrown e))
  ∧ (∀ e,
       toBlob methods = None → toDataURL methods (Some type') quality = Throw e →
       imgSrcToBlob host env src type crossOrigin quality = Rejected (thrown e))
  ∧ (crossOrigin = Some [] → crossOrigin_attribute crossOrigin = None).
Proof.
  intros H img canvas type' methods.
  assert (Hblob : imgSrcToBlob host env src type crossOrigin quality
                  = match (canvasToBlob env methods (Some type') quality).2 with
                    | Return p => p
                    | Throw e => Rejected (thrown e)
                    end).
  { unfold imgSrcToBlob. by rewrite (loadImage_first _ _ _ _ _ H). }
  split; [|split; [exact Hblob|split; [|split]]].
  - unfold imgSrcToDataURL. by rewrite (loadImage_first _ _ _ _ _ H).
  - intros primitive e Hprim Hthrow. rewrite Hblob. unfold canvasToBlob.
    by rewrite Hprim, Hthrow.
  - intros e Hnone Hthrow. rewrite Hblob. unfold canvasToBlob.
    by rewrite Hnone, Hthrow.
  - by intros ->.
Qed.

Lemma image_loaded_witness :
  let host : ImageHost Z :=
    {| decode := λ _ _, [image_load 2 2];
       canvas_methods := λ canvas,
         {| toBlob := None;
            toDataURL := λ type _,
              Return (js "data:" ++ default [] type ++ js ";base64,aGk=") |} |} in
  imgSrcToDataURL host (js "dot.gif") (Some []) (Some []) None
  = Fulfilled (js "data:image/png;base64,aGk=").
Proof.
  intros host.
  exact (proj1 (image_loaded host standard_environment (js "dot.gif")
                  (Some []) (Some []) None 2 2 [] eq_refl)).
Defined.

(** An image from another origin loaded without [crossOrigin]: the
    canvas is tainted and both functions reject. *)
Example image_tainted :
  let e := SecurityError "Tainted canvases may not be exported." in
  let host : ImageHost Z :=
    {| decode := λ _ _, [image_load 2 2];
       canvas_methods := λ canvas,
         {| toBlob := Some (λ _ _, Throw e); toDataURL := λ _ _, Throw e |} |} in
  imgSrcToDataURL host (js "http://other/dot.gif") None None None = Rejected (thrown e)
  ∧ imgSrcToBlob host standard_environment (js "http://other/dot.gif") None None None
    = Rejected (thrown e).
Proof. split; reflexivity. Qed.

(** X19. On a host whose canvases have no [toBlob], [imgSrcToBlob] is
    [imgSrcToDataURL] followed by [dataURLToBlob]: it resolves with the
    blob parsed from the data URL, rejects with what [dataURLToBlob]
    throws, and otherwise settles as [imgSrcToDataURL] does. *)
Theorem imgSrcToBlob_by_data_url {Q : Type} (host : ImageHost Q) (env : Environment)
    (src : jsstring) (type crossOrigin : option jsstring) (quality : option Q) :
  (∀ canvas, toBlob (canvas_methods host canvas) = None) →
  imgSrcToBlob host env src type crossOrigin quality
  = then_ (imgSrcToDataURL host src type crossOrigin quality)
      (λ dataURL, match (dataURLToBlob env dataURL).2 with
                  | Return blob => Return (Some blob)
                  | Throw e => Throw e
                  end).
Proof.
  intros Hno. unfold imgSrcToBlob, imgSrcToDataURL.
  destruct (loadImage (decode host) src crossOrigin) as [|img|r]; [done| |done].
  cbn [then_ then_promise]. unfold canvasToBlob. rewrite Hno.
  destruct (toDataURL _ _ _) as [dataURL|e] eqn:Hurl; cbn [then_]; rewrite ?Hurl;
    [|reflexivity].
  rewrite tbind_lift_return.
  destruct (dataURLToBlob env dataURL) as [log [blob|e]];
    unfold mbind, traced_bind, tbind, mret, traced_ret, tret; by cbn [fst snd].
Qed.

Lemma imgSrcToBlob_by_data_url_witness :
  let host : ImageHost Z :=
    {| decode := λ _ _, [image_load 1 1];
       canvas_methods := λ canvas,
         {| toBlob := None;
            toDataURL := λ type _,
              Return (js "data:" ++ default [] type ++ js ";base64,aGk=") |} |} in
  imgSrcToBlob host standard_environment (js "dot.gif") (Some (js "image/gif")) None None
  = Fulfilled (Some {| type := js "image/gif"; content := ["h"; "i"]%byte |}).
Proof.
  intros host.
  etrans.
  { apply (imgSrcToBlob_by_data_url host standard_environment (js "dot.gif")
             (Some (js "image/gif")) None None). reflexivity. }
  vm_compute. reflexivity.
Defined.

(** X20. The data-URL round trip of a blob whose type has a parameter
    keeps the bytes and cuts the type at its first [;]: the blob that
    comes back has the part before it as its type. *)
Theorem data_url_round_trip_cuts_type (hasBinaryString : bool)
    (fails : Blob → option js_error) (o : Blob) (t parameters : jsstring) :
  fails o = None →
  type o = t ++ [semicolon] ++ parameters →
  t ≠ [] → semicolon ∉ t → comma ∉ t → comma ∉ parameters →
  data_url_round_trip (standard_FileReader hasBinaryString fails) standard_environment o
  = Fulfilled {| type := normalize_type t; content := content o |}.
Proof.
  intros Hok Htype Hne Hsemi Hcomma Hparams. unfold data_url_round_trip, blobToDataURL.
  rewrite blobToBase64String_standard by done. cbn [then_]. rewrite Htype.
  assert (js "data:" ++ (t ++ [semicolon] ++ parameters) ++ js ";base64,"
            ++ base64_encode (content o)
          = js "data:" ++ t ++ [semicolon] ++ (parameters ++ js ";base64") ++ [comma]
              ++ base64_encode (content o)) as ->.
  { change (js ";base64,") with (js ";base64" ++ [comma]). by rewrite <- !app_assoc. }
  rewrite dataURLToBlob_type_and_payload; [|done..|].
  - rewrite createBlob_standard. cbn. by rewrite app_nil_r.
  - intros H. apply elem_of_app in H as [H|H]; [done|]. revert H. concrete_elem.
Qed.

Lemma data_url_round_trip_cuts_type_witness :
  data_url_round_trip (standard_FileReader true (λ _, None)) standard_environment
    {| type := js "text/plain;charset=utf-8"; content := ["h"; "i"]%byte |}
  = Fulfilled {| type := js "text/plain"; content := ["h"; "i"]%byte |}.
Proof.
  apply (data_url_round_trip_cuts_type true (λ _, None)
           {| type := js "text/plain;charset=utf-8"; content := ["h"; "i"]%byte |}
           (js "text/plain") (js "charset=utf-8"));
    [reflexivity|reflexivity|discriminate|concrete_elem..].
Defined.

